(** * vmcbotiq: the signal-and-stake decision loop of [main.py]

    A shallow embedding of [IQOptionTrader] (the martingale stake controller
    [_handle_order_result], the market analysis [_analyze_market] with its
    data source [_get_price_data], and one cycle [create_order]) together
    with the properties of the specification that concern them.

    Python [float]s are IEEE 754 binary64 numbers; they are modelled with
    the Standard Library's executable [spec_float] at precision 53 and
    maximal exponent 1024, so that every arithmetic step of the source
    rounds here exactly as it rounds there.  Python [int]s are [Z]. *)

From Stdlib Require Import ZArith QArith Bool List Ascii String Lia.
From Stdlib Require Import SpecFloat.
Import ListNotations.

Local Open Scope Z_scope.

(** ** Python values: binary64 floats, [round], exceptions *)

Module PyFloat.

Definition float : Type := spec_float.

Definition prec : Z := 53.
Definition emax : Z := 1024.

Definition fadd : float -> float -> float := SFadd prec emax.
Definition fsub : float -> float -> float := SFsub prec emax.
Definition fmul : float -> float -> float := SFmul prec emax.
Definition fdiv : float -> float -> float := SFdiv prec emax.
Definition fsqrt : float -> float := SFsqrt prec emax.
Definition fabs : float -> float := SFabs.
Definition flt : float -> float -> bool := SFltb.
Definition feq : float -> float -> bool := SFeqb.

(** [x > y] is [y < x], also on NaN (both false). *)
Definition fgt (x y : float) : bool := SFltb y x.

Definition is_nan (x : float) : bool :=
  match x with S754_nan => true | _ => false end.

Definition fzero : float := S754_zero false.
Definition fnan : float := S754_nan.

(** A float that is not a negative finite number. *)
Definition not_negative (x : float) : Prop :=
  match x with
  | S754_finite true _ _ => False
  | _ => True
  end.

(** The float of an integer ([float(n)], and the implicit conversion of an
    [int] operand): the nearest binary64, ties to even. *)
Definition of_Z (n : Z) : float := binary_normalize prec emax n 0 false.

(** A decimal literal [n / 10^k] as Python reads it: the binary64 nearest
    to the quotient.  Both operands are exact for the literals used here
    (below 2^53), and IEEE division rounds the exact quotient once. *)
Definition dec (n : Z) (k : nat) : float :=
  fdiv (of_Z n) (of_Z (10 ^ Z.of_nat k)).

(** The literal [.15] of [_handle_order_result]. *)
Definition f015 : float := Eval vm_compute in dec 15 2.

(** The exact value of a finite float, as a rational. *)
Definition SF2Q (x : float) : option Q :=
  match x with
  | S754_zero _ => Some 0%Q
  | S754_finite s m e =>
      Some match e with
           | Zneg p => Qmake (cond_Zopp s (Zpos m)) (2 ^ p)
           | _ => inject_Z (cond_Zopp s (Zpos m) * 2 ^ e)
           end
  | S754_infinity _ | S754_nan => None
  end.

(** Nearest integer to [n / d] for [0 < d], ties to the even neighbour. *)
Definition round_half_even_div (n d : Z) : Z :=
  let q := n / d in
  let r := n mod d in
  match 2 * r ?= d with
  | Lt => q
  | Gt => q + 1
  | Eq => if Z.even q then q else q + 1
  end.

Definition round_half_even (q : Q) : Z :=
  round_half_even_div (Qnum q) (Zpos (Qden q)).

(** Nearest integer, ties upwards: the other common reading of "round". *)
Definition round_half_up (q : Q) : Z :=
  (2 * Qnum q + Zpos (Qden q)) / (2 * Zpos (Qden q)).

Inductive exn : Type :=
| OverflowError
| ValueError
| KeyError (key : string)
| IndexError
| BrokerError
| OutOfBoundsDatetime.

Inductive result (A : Type) : Type :=
| Ok (a : A)
| Raise (e : exn).
Arguments Ok {A} a.
Arguments Raise {A} e.

(** Python's one-argument [round] on a float: an exact [int], ties to
    even; [OverflowError] on an infinity and [ValueError] on NaN. *)
Definition pyround (x : float) : result Z :=
  match x with
  | S754_infinity _ => Raise OverflowError
  | S754_nan => Raise ValueError
  | _ => match SF2Q x with
         | Some q => Ok (round_half_even q)
         | None => Raise ValueError
         end
  end.

End PyFloat.

Import PyFloat.

(** ** The logger and the effect monad

    Every method of the trader writes to [self.logger] and may raise.  A
    computation yields the lines it logged, in order, and either a value or
    the exception that ended it; the lines logged before a [raise] stay. *)

Inductive trade_direction : Type := call | put.

Inductive log_event : Type :=
| ErrFetchFailed (e : exn)        (* "Failed to fetch price data: ..." *)
| ErrEmptyOrShort                 (* "Price data is empty or too short." *)
| ErrMissingColumns               (* "Missing required columns: 'low', 'high'" *)
| ErrNotEnoughValid               (* "Not enough valid data after indicators." *)
| ErrAnalysisFailed (e : exn)     (* "Market analysis failed: ..." *)
| InfoAccount (win lose : Z) (maxlose : float)
| ErrOrderFailed                  (* "Order creation failed. Status: ..." *)
| InfoOrderOpened (d : trade_direction) (volume : Z)
| ErrOrderProcessing (e : exn)    (* "Order processing error: ..." *)
| InfoLoss (win : float)
| InfoMaxMartingale               (* "Max Martingale reached, resetting" *)
| InfoWin (win : float).

Definition M (A : Type) : Type := (list log_event * result A)%type.

Definition ret {A} (a : A) : M A := ([], Ok a).
Definition raise {A} (e : exn) : M A := ([], Raise e).
Definition log (ev : log_event) : M unit := ([ev], Ok tt).

Definition bind {A B} (m : M A) (f : A -> M B) : M B :=
  match m with
  | (l, Ok a) => let (l', r) := f a in (l ++ l', r)
  | (l, Raise e) => (l, Raise e)
  end.

Notation "x <- m ;; k" := (bind m (fun x => k))
  (at level 61, m at next level, right associativity).
Notation "m ;;; k" := (bind m (fun _ => k))
  (at level 61, right associativity).

(** ** The stake controller *)

Module Stake.

(** The fields of [self.config] that the trading logic reads. *)
Record config : Type := {
  start_bet : Z;
  max_martingel : Z;
  select_asset : string;
  expiration : Z;
  api_balance : string
}.

(** The mutable fields of an [IQOptionTrader].  [TempLose] and [MaxLose]
    start as the [int] 0 and receive floats; 0 and 0.0 compare and add
    alike, so both are floats here. *)
Record trader : Type := {
  amount : Z;
  mm : Z;
  direction : trade_direction;
  TempLose : float;
  MaxLose : float;
  gameWin : Z;
  gameLose : Z
}.

(** [__init__], once the configuration is loaded. *)
Definition __init__ (cfg : config) : trader :=
  {| amount := start_bet cfg;
     mm := 0;
     direction := call;
     TempLose := fzero;
     MaxLose := fzero;
     gameWin := 0;
     gameLose := 0 |}.

(** [round((abs(win) + (abs(win) * .15)))] *)
Definition loss_increment (win : float) : result Z :=
  pyround (fadd (fabs win) (fmul (fabs win) f015)).

(** A loss that moves the stake up: its rounded increment is positive. *)
Definition raises_stake (win : float) : Prop :=
  forall r, loss_increment win = Ok r -> 1 <= r.

(** Lines 258-263: the assignments of the loss branch, [r] being the
    rounded increment. *)
Definition loss_update (s : trader) (r : Z) (win : float) : trader :=
  let temp := fadd (TempLose s) win in
  {| amount := amount s + r;
     mm := mm s + 1;
     direction := direction s;
     TempLose := temp;
     MaxLose := if flt temp (MaxLose s) then temp else MaxLose s;
     gameWin := gameWin s;
     gameLose := gameLose s + 1 |}.

(** Lines 267-268. *)
Definition cap_reset (cfg : config) (s : trader) : trader :=
  {| amount := start_bet cfg;
     mm := 0;
     direction := direction s;
     TempLose := TempLose s;
     MaxLose := MaxLose s;
     gameWin := gameWin s;
     gameLose := gameLose s |}.

(** Lines 273-276. *)
Definition win_reset (cfg : config) (s : trader) : trader :=
  {| amount := start_bet cfg;
     mm := 0;
     direction := direction s;
     TempLose := fzero;
     MaxLose := MaxLose s;
     gameWin := gameWin s + 1;
     gameLose := gameLose s |}.

Definition _handle_order_result (cfg : config) (s : trader) (win : float)
  : M trader :=
  if flt win fzero then
    log (InfoLoss win) ;;;
    match loss_increment win with
    | Raise e => raise e
    | Ok r =>
        let s1 := loss_update s r win in
        if max_martingel cfg <? mm s1 then
          log InfoMaxMartingale ;;;
          ret (cap_reset cfg s1)
        else ret s1
    end
  else
    log (InfoWin win) ;;;
    ret (win_reset cfg s).

(** The controller's states: those [__init__] and any sequence of settled
    orders lead to.  [outcome_ok] restricts the profit/loss amounts the
    broker reports. *)
Inductive reachable_with (outcome_ok : float -> Prop) (cfg : config)
  : trader -> Prop :=
| reach_init : reachable_with outcome_ok cfg (__init__ cfg)
| reach_step s win s' :
    reachable_with outcome_ok cfg s ->
    outcome_ok win ->
    snd (_handle_order_result cfg s win) = Ok s' ->
    reachable_with outcome_ok cfg s'.

Definition reachable : config -> trader -> Prop :=
  reachable_with (fun _ => True).

(** Settling a list of orders in sequence, keeping the stake each order
    was placed with. *)
Fixpoint settle_all (cfg : config) (s : trader) (wins : list float)
  : result (list Z * trader) :=
  match wins with
  | [] => Ok ([], s)
  | w :: ws =>
      match snd (_handle_order_result cfg s w) with
      | Raise e => Raise e
      | Ok s' =>
          match settle_all cfg s' ws with
          | Raise e => Raise e
          | Ok (stakes, s'') => Ok (amount s :: stakes, s'')
          end
      end
  end.

End Stake.

Import Stake.

(** ** Market data and analysis *)

Module Market.

(** A candle as the broker sends it: a dict whose keys may be absent
    ([None]: indexing it raises [KeyError]). *)
Record candle : Type := {
  c_id : option Z;
  c_open : option float;
  c_close : option float;
  c_min : option float;
  c_max : option float
}.

(** A row of the frame built by [_get_price_data]. *)
Record price_row : Type := {
  p_id : Z;
  p_open : float;
  p_close : float;
  p_low : float;
  p_high : float
}.

(** The [DataFrame] of [_get_price_data]: its column labels and rows. *)
Record frame : Type := {
  columns : list string;
  rows : list price_row
}.

Definition empty_frame : frame := {| columns := []; rows := [] |}.

(** [DataFrame.empty]: some axis has length 0. *)
Definition frame_empty (f : frame) : bool :=
  match columns f, rows f with
  | [], _ | _, [] => true
  | _, _ => false
  end.

Definition getitem {A} (key : string) (v : option A) : result A :=
  match v with
  | Some a => Ok a
  | None => Raise (KeyError key)
  end.

(** The dict display of the list comprehension, keys in source order. *)
Definition price_fields (c : candle)
  : result (float * float * float * float) :=
  match getitem "open" (c_open c) with
  | Raise e => Raise e
  | Ok o =>
  match getitem "close" (c_close c) with
  | Raise e => Raise e
  | Ok cl =>
  match getitem "min" (c_min c) with
  | Raise e => Raise e
  | Ok lo =>
  match getitem "max" (c_max c) with
  | Raise e => Raise e
  | Ok hi => Ok (o, cl, lo, hi)
  end end end end.

Fixpoint map_result {A B} (f : A -> result B) (l : list A)
  : result (list B) :=
  match l with
  | [] => Ok []
  | a :: l' =>
      match f a with
      | Raise e => Raise e
      | Ok b =>
          match map_result f l' with
          | Raise e => Raise e
          | Ok bs => Ok (b :: bs)
          end
      end
  end.

Definition mk_row (i : Z) (f : float * float * float * float) : price_row :=
  let '(o, cl, lo, hi) := f in
  {| p_id := i; p_open := o; p_close := cl; p_low := lo; p_high := hi |}.

Fixpoint zip_rows (ids : list Z) (fs : list (float * float * float * float))
  : list price_row :=
  match ids, fs with
  | i :: ids', f :: fs' => mk_row i f :: zip_rows ids' fs'
  | _, _ => []
  end.

(** The operations of pandas that the trader calls.  The numeric kernels
    of [_analyze_market], each a column to a column:
    [rolling(window=w).mean()], [rolling(window=w).std()] and
    [ewm(span=n, adjust=False).mean()].  And [pd.to_datetime(ids, unit='s')]
    of [_get_price_data]: the index values of the seconds given, or the
    exception it raises (an id out of the range of a timestamp). *)
Record pandas : Type := {
  rolling_mean : nat -> list float -> list float;
  rolling_std : nat -> list float -> list float;
  ewm_mean : nat -> list float -> list float;
  to_datetime : list Z -> result (list Z)
}.

(** The body of the [try] of [_get_price_data], the broker's answer to
    [get_candles] given: first the price columns of every candle, then
    every candle's ['id'], then the index [to_datetime] makes of the ids;
    an index of another length than the frame cannot be assigned. *)
Definition build_frame (pd : pandas) (candles : list candle)
  : result frame :=
  match map_result price_fields candles with
  | Raise e => Raise e
  | Ok fs =>
      match map_result (fun c => getitem "id" (c_id c)) candles with
      | Raise e => Raise e
      | Ok ids =>
          match to_datetime pd ids with
          | Raise e => Raise e
          | Ok index =>
              if Nat.eqb (List.length index) (List.length fs) then
                Ok {| columns := match fs with
                                 | [] => []
                                 | _ => ["open"; "close"; "low"; "high"]%string
                                 end;
                      rows := zip_rows index fs |}
              else Raise ValueError
          end
      end
  end.

(** [_get_price_data]: any exception is logged and answered with an
    empty frame. *)
Definition _get_price_data (pd : pandas) (fetched : result (list candle))
  : M frame :=
  match fetched with
  | Raise e => log (ErrFetchFailed e) ;;; ret empty_frame
  | Ok candles =>
      match build_frame pd candles with
      | Raise e => log (ErrFetchFailed e) ;;; ret empty_frame
      | Ok f => ret f
      end
  end.

(** The price keys [_get_price_data] reads from a candle. *)
Definition price_keys : list string :=
  ["open"; "close"; "min"; "max"]%string.

(** Some required price key of the candle is absent. *)
Definition missing_price_field (c : candle) : Prop :=
  c_open c = None \/ c_close c = None \/ c_min c = None \/ c_max c = None.

(** The first price key the candle lacks, in the order of the dict
    display: open, close, min, max. *)
Definition first_missing_key (c : candle) : option string :=
  match c_open c, c_close c, c_min c, c_max c with
  | None, _, _, _ => Some "open"%string
  | Some _, None, _, _ => Some "close"%string
  | Some _, Some _, None, _ => Some "min"%string
  | Some _, Some _, Some _, None => Some "max"%string
  | Some _, Some _, Some _, Some _ => None
  end.

(** The first price key lacking in the series: that of its first candle
    that lacks one. *)
Fixpoint first_missing (cs : list candle) : option string :=
  match cs with
  | [] => None
  | c :: cs' =>
      match first_missing_key c with
      | Some key => Some key
      | None => first_missing cs'
      end
  end.

(** A row after the indicator columns are attached. *)
Record indicator_row : Type := {
  r_open : float;
  r_close : float;
  r_low : float;
  r_high : float;
  SMA : float;
  STD : float;
  Upper_BB : float;
  Lower_BB : float;
  ema_cross : float;
  ema_trend : float;
  ema_base : float
}.

(** The locals of [_analyze_market] that hold the setup. *)
Record setups : Type := {
  trendUp : bool;
  trendDn : bool;
  priceIn : bool;
  crossOver : bool;
  crossUnder : bool;
  Signal_buy : bool;
  Signal_sell : bool
}.

(** [df.iloc[-k]] for [0 < k]. *)
Definition iloc_neg {A} (l : list A) (k : nat) : result A :=
  if (Nat.ltb (List.length l) k) then Raise IndexError
  else match nth_error l (List.length l - k) with
       | Some a => Ok a
       | None => Raise IndexError
       end.

Definition row_has_nan (r : indicator_row) : bool :=
  is_nan (r_open r) || is_nan (r_close r) || is_nan (r_low r)
  || is_nan (r_high r) || is_nan (SMA r) || is_nan (STD r)
  || is_nan (Upper_BB r) || is_nan (Lower_BB r) || is_nan (ema_cross r)
  || is_nan (ema_trend r) || is_nan (ema_base r).

(** [DataFrame.dropna()] *)
Definition dropna (l : list indicator_row) : list indicator_row :=
  filter (fun r => negb (row_has_nan r)) l.

(** Lines 189-197, from the two reference rows. *)
Definition market_setups (second_last_row third_last_row : indicator_row)
  : setups :=
  let trendUp :=
    flt (ema_base second_last_row) (ema_trend second_last_row)
    && flt (ema_trend second_last_row) (ema_cross second_last_row) in
  let trendDn :=
    fgt (ema_base second_last_row) (ema_trend second_last_row)
    && fgt (ema_trend second_last_row) (ema_cross second_last_row) in
  let priceIn :=
    fgt (r_low second_last_row) (Lower_BB second_last_row)
    && flt (r_high second_last_row) (Upper_BB second_last_row) in
  let crossOver :=
    flt (ema_cross third_last_row) (ema_trend third_last_row)
    && fgt (ema_cross second_last_row) (ema_trend second_last_row) in
  let crossUnder :=
    fgt (ema_cross third_last_row) (ema_trend third_last_row)
    && flt (ema_cross second_last_row) (ema_trend second_last_row) in
  {| trendUp := trendUp;
     trendDn := trendDn;
     priceIn := priceIn;
     crossOver := crossOver;
     crossUnder := crossUnder;
     Signal_buy := trendUp && priceIn && crossOver;
     Signal_sell := trendDn && priceIn && crossUnder |}.

(** Lines 202-211. *)
Definition close_vs_open (latest_row : indicator_row)
  : option trade_direction :=
  if fgt (r_close latest_row) (r_open latest_row) then Some call
  else if flt (r_close latest_row) (r_open latest_row) then Some put
  else None.

(** Lines 185-211: the locals and the value returned. *)
Definition decide (price_data : list indicator_row)
  : M (setups * option trade_direction) :=
  match iloc_neg price_data 1 with
  | Raise e => raise e
  | Ok latest_row =>
  match iloc_neg price_data 2 with
  | Raise e => raise e
  | Ok second_last_row =>
  match iloc_neg price_data 2 with
  | Raise e => raise e
  | Ok third_last_row =>
      ret (market_setups second_last_row third_last_row,
           close_vs_open latest_row)
  end end end.

Section WithPandas.

Variable pd : pandas.

(** Lines 170-178: the indicator columns, aligned by position; a
    position a kernel leaves out reads as NaN. *)
Definition with_indicators (l : list price_row) : list indicator_row :=
  let closes := map p_close l in
  let sma := rolling_mean pd 20 closes in
  let std := rolling_std pd 20 closes in
  let e12 := ewm_mean pd 12 closes in
  let e50 := ewm_mean pd 50 closes in
  let e200 := ewm_mean pd 200 closes in
  map (fun ir : nat * price_row =>
         let (i, r) := ir in
         let m := nth i sma fnan in
         let sd := nth i std fnan in
         {| r_open := p_open r;
            r_close := p_close r;
            r_low := p_low r;
            r_high := p_high r;
            SMA := m;
            STD := sd;
            Upper_BB := fadd m (fmul (of_Z 2) sd);
            Lower_BB := fsub m (fmul (of_Z 2) sd);
            ema_cross := nth i e12 fnan;
            ema_trend := nth i e50 fnan;
            ema_base := nth i e200 fnan |})
      (combine (seq 0 (List.length l)) l).

(** The rows that survive [dropna], for the frame fetched. *)
Definition trimmed_rows (fetched : result (list candle))
  : list indicator_row :=
  match snd (_get_price_data pd fetched) with
  | Ok f => dropna (with_indicators (rows f))
  | Raise _ => []
  end.

Definition has_columns (f : frame) (cols : list string) : bool :=
  forallb (fun col => existsb (String.eqb col) (columns f)) cols.

(** The body of the [try] of [_analyze_market], with the locals. *)
Definition analyze_body (fetched : result (list candle))
  : M (option (setups * option trade_direction)) :=
  price_data <- _get_price_data pd fetched ;;
  if frame_empty price_data
     || (Nat.ltb (List.length (rows price_data)) 2) then
    log ErrEmptyOrShort ;;; ret None
  else if negb (has_columns price_data ["low"; "high"]%string) then
    log ErrMissingColumns ;;; ret None
  else
    let price_data := dropna (with_indicators (rows price_data)) in
    if match price_data with [] => true | _ => false end
       || (Nat.ltb (List.length price_data) 2) then
      log ErrNotEnoughValid ;;; ret None
    else
      r <- decide price_data ;;
      ret (Some r).

(** [_analyze_market] with its locals: an exception of the body is
    logged and answered with [None]. *)
Definition analysis (fetched : result (list candle))
  : M (option (setups * option trade_direction)) :=
  match analyze_body fetched with
  | (l, Raise e) => (l ++ [ErrAnalysisFailed e], Ok None)
  | (l, Ok r) => (l, Ok r)
  end.

(** [_analyze_market]: the direction to trade, or [None]. *)
Definition _analyze_market (fetched : result (list candle))
  : M (option trade_direction) :=
  r <- analysis fetched ;;
  ret match r with
      | Some (_, d) => d
      | None => None
      end.

End WithPandas.

End Market.

Import Market.

(** ** Reference kernels

    The three pandas operations by their documented formulas, evaluated in
    binary64: the rolling mean and sample standard deviation of a full
    window (NaN before the window fills), and the recursion of
    [ewm(adjust=False)] on [alpha = 1 / (1 + com)], [com = (span - 1) / 2];
    and a conversion of seconds to timestamps.  They serve to run the
    analysis on concrete series; the theorems below hold for any
    kernels. *)

Module Kernels.

Definition fsum (l : list float) : float := fold_left fadd l fzero.

(** The [w] values that end at position [i] of [l], if there are [w]. *)
Definition window (w i : nat) (l : list float) : option (list float) :=
  if Nat.ltb i (w - 1) then None
  else Some (firstn w (skipn (i + 1 - w) l)).

Definition mean (l : list float) : float :=
  fdiv (fsum l) (of_Z (Z.of_nat (List.length l))).

Definition sample_std (l : list float) : float :=
  let m := mean l in
  fsqrt (fdiv (fsum (map (fun x => fmul (fsub x m) (fsub x m)) l))
              (of_Z (Z.of_nat (List.length l) - 1))).

Definition rolling (agg : list float -> float) (w : nat) (l : list float)
  : list float :=
  map (fun i => match window w i l with
                | Some xs => agg xs
                | None => fnan
                end)
      (seq 0 (List.length l)).

Fixpoint ewm_go (alpha weighted old_wt : float) (vals : list float)
  : list float :=
  match vals with
  | [] => []
  | cur :: rest =>
      let is_observation := negb (is_nan cur) in
      let '(weighted', old_wt') :=
        if negb (is_nan weighted) then
          let old_wt1 := fmul old_wt (fsub (of_Z 1) alpha) in
          if is_observation then
            (if feq weighted cur then weighted
             else fdiv (fadd (fmul old_wt1 weighted) (fmul alpha cur))
                       (fadd old_wt1 alpha),
             of_Z 1)
          else (weighted, old_wt1)
        else if is_observation then (cur, old_wt)
        else (weighted, old_wt) in
      weighted' :: ewm_go alpha weighted' old_wt' rest
  end.

Definition ewm (span : nat) (l : list float) : list float :=
  let com := fdiv (of_Z (Z.of_nat span - 1)) (of_Z 2) in
  let alpha := fdiv (of_Z 1) (fadd (of_Z 1) com) in
  match l with
  | [] => []
  | x :: rest => x :: ewm_go alpha x (of_Z 1) rest
  end.

(** The seconds whose nanoseconds fit the 64 bits of a timestamp. *)
Definition in_timestamp_range (i : Z) : bool :=
  (-9223372036 <=? i) && (i <=? 9223372036).

(** [to_datetime] on seconds in that range, as nanoseconds; it raises on
    an id outside. *)
Definition datetime_of_seconds (ids : list Z) : result (list Z) :=
  if forallb in_timestamp_range ids
  then Ok (map (fun i => i * 1000000000) ids)
  else Raise OutOfBoundsDatetime.

Definition reference : pandas :=
  {| rolling_mean := rolling mean;
     rolling_std := rolling sample_std;
     ewm_mean := ewm;
     to_datetime := datetime_of_seconds |}.

End Kernels.

(** ** One cycle of the trading loop *)

Module Loop.

(** What the broker answers during one cycle. *)
Record broker : Type := {
  get_candles : result (list candle);
  get_balance : result float;
  buy : Z -> trade_direction -> result (bool * Z);
  check_win_v3 : Z -> result float
}.

(** What one cycle leaves behind: the trader, the calls made to
    [account.buy] (stake and side), and the lines logged. *)
Record outcome : Type := {
  trader_after : trader;
  buy_calls : list (Z * trade_direction);
  logged : list log_event
}.

Definition set_direction (s : trader) (d : trade_direction) : trader :=
  {| amount := amount s;
     mm := mm s;
     direction := d;
     TempLose := TempLose s;
     MaxLose := MaxLose s;
     gameWin := gameWin s;
     gameLose := gameLose s |}.

Section WithPandas.

Variable pd : pandas.

(** [create_order]: every exception ends the cycle in the handler,
    with the assignments made so far in place. *)
Definition create_order (cfg : config) (s : trader) (b : broker)
  : outcome :=
  let (l1, r) := _analyze_market pd (get_candles b) in
  match r with
  | Raise e =>
      {| trader_after := s; buy_calls := [];
         logged := l1 ++ [ErrOrderProcessing e] |}
  | Ok None =>
      {| trader_after := s; buy_calls := []; logged := l1 |}
  | Ok (Some d) =>
      match get_balance b with
      | Raise e =>
          {| trader_after := s; buy_calls := [];
             logged := l1 ++ [ErrOrderProcessing e] |}
      | Ok _ =>
          let l2 :=
            l1 ++ [InfoAccount (gameWin s) (gameLose s) (MaxLose s)] in
          let s1 := set_direction s d in
          let calls := [(amount s1, direction s1)] in
          match buy b (amount s1) (direction s1) with
          | Raise e =>
              {| trader_after := s1; buy_calls := calls;
                 logged := l2 ++ [ErrOrderProcessing e] |}
          | Ok (status, position_id) =>
              if negb status then
                {| trader_after := s1; buy_calls := calls;
                   logged := l2 ++ [ErrOrderFailed] |}
              else
                let l3 :=
                  l2 ++ [InfoOrderOpened (direction s1) (amount s1)] in
                match check_win_v3 b position_id with
                | Raise e =>
                    {| trader_after := s1; buy_calls := calls;
                       logged := l3 ++ [ErrOrderProcessing e] |}
                | Ok win =>
                    match _handle_order_result cfg s1 win with
                    | (l4, Ok s2) =>
                        {| trader_after := s2; buy_calls := calls;
                           logged := l3 ++ l4 |}
                    | (l4, Raise e) =>
                        {| trader_after := s1; buy_calls := calls;
                           logged := l3 ++ l4 ++ [ErrOrderProcessing e] |}
                    end
                end
          end
      end
  end.

End WithPandas.

End Loop.

Import Loop.

(** ** Sample data *)

Module Samples.

(** A well-formed candle with integer prices. *)
Definition candle_of (i o c lo hi : Z) : candle :=
  {| c_id := Some i;
     c_open := Some (of_Z o);
     c_close := Some (of_Z c);
     c_min := Some (of_Z lo);
     c_max := Some (of_Z hi) |}.

Definition flat (n : nat) : list candle :=
  map (fun i => candle_of (Z.of_nat i) 100 100 99 101) (seq 0 n).

(** Twenty flat candles, a dip to 90, a jump to 200, then 201. *)
Definition crossing_series : list candle :=
  flat 20 ++ [candle_of 20 100 90 89 101;
              candle_of 21 90 200 89 201;
              candle_of 22 200 201 199 202].

(** Twenty flat candles, a rise to 110, a drop to 10, then 9. *)
Definition falling_series : list candle :=
  flat 20 ++ [candle_of 20 100 110 99 111;
              candle_of 21 110 10 9 111;
              candle_of 22 10 9 8 11].

(** The crossing series with the ['open'] of its last candle absent. *)
Definition broken_series : list candle :=
  flat 20 ++ [candle_of 20 100 90 89 101;
              candle_of 21 90 200 89 201;
              {| c_id := Some 22; c_open := None;
                 c_close := Some (of_Z 201);
                 c_min := Some (of_Z 199);
                 c_max := Some (of_Z 202) |}].

(** The flat series followed by a candle without ['min'] and one without
    ['open']. *)
Definition broken_min_series : list candle :=
  flat 20 ++ [{| c_id := Some 20; c_open := Some (of_Z 100);
                 c_close := Some (of_Z 90);
                 c_min := None;
                 c_max := Some (of_Z 101) |};
              {| c_id := Some 21; c_open := None;
                 c_close := Some (of_Z 200);
                 c_min := Some (of_Z 89);
                 c_max := Some (of_Z 201) |}].

(** The configuration of the end-to-end scenario. *)
Definition cfg10 : config :=
  {| start_bet := 10; max_martingel := 3; select_asset := "GBPUSD-OTC";
     expiration := 1; api_balance := "PRACTICE" |}.

(** The same with a starting stake of 11. *)
Definition cfg11 : config :=
  {| start_bet := 11; max_martingel := 3; select_asset := "GBPUSD-OTC";
     expiration := 1; api_balance := "PRACTICE" |}.

(** The losses of the end-to-end scenario: -10, -11.5, -13.225. *)
Definition three_losses : list float :=
  [of_Z (-10); dec (-115) 1; dec (-13225) 3].

(** The trader after them, three losses deep at the cap of [cfg10]. *)
Definition at_cap : trader :=
  match settle_all cfg10 (__init__ cfg10) three_losses with
  | Ok (_, s) => s
  | Raise _ => __init__ cfg10
  end.

(** Outcomes that are a win of 0 or a loss of 10. *)
Definition zero_or_minus_ten (w : float) : Prop :=
  w = fzero \/ w = of_Z (-10).

(** The trader after a win of 0 and then a loss of 10 from the start. *)
Definition after_win_and_loss : trader :=
  loss_update (win_reset cfg10 (__init__ cfg10)) 12 (of_Z (-10)).

(** The trader after a single loss of 0.25 from the start. *)
Definition after_small_loss : trader :=
  loss_update (__init__ cfg10) 0 (dec (-25) 2).

(** A broker that answers one cycle: the candles, then an accepted
    order that settles at [win]. *)
Definition broker_of (cs : list candle) (win : float) : broker :=
  {| get_candles := Ok cs;
     get_balance := Ok (of_Z 1000);
     buy := fun _ _ => Ok (true, 1);
     check_win_v3 := fun _ => Ok win |}.

End Samples.

Import Samples.

(** ** The specification's wording *)

Module Spec.

(** "stake <- round(stake + |loss| + 0.15 * |loss|)", in exact
    arithmetic, for a rounding [rnd] to an integer. *)
Definition loss_stake (rnd : Q -> Z) (stake : Z) (loss : float)
  : option Z :=
  match SF2Q (fabs loss) with
  | Some a => Some (rnd (inject_Z stake + a + (15 # 100) * a)%Q)
  | None => None
  end.

(** The third-last reference row: the true third row from the end when
    three rows remain, else the second-last. *)
Definition third_last (l : list indicator_row) : result indicator_row :=
  if Nat.leb 3 (List.length l) then iloc_neg l 3 else iloc_neg l 2.

(** "crossOver = (thirdLast.emaFast < thirdLast.emaMid) AND
    (secondLast.emaFast > secondLast.emaMid)" *)
Definition crossOver (l : list indicator_row) : result bool :=
  match third_last l, iloc_neg l 2 with
  | Ok t, Ok s2 =>
      Ok (flt (ema_cross t) (ema_trend t)
          && fgt (ema_cross s2) (ema_trend s2))
  | Raise e, _ | _, Raise e => Raise e
  end.

Definition crossUnder (l : list indicator_row) : result bool :=
  match third_last l, iloc_neg l 2 with
  | Ok t, Ok s2 =>
      Ok (fgt (ema_cross t) (ema_trend t)
          && flt (ema_cross s2) (ema_trend s2))
  | Raise e, _ | _, Raise e => Raise e
  end.

(** A number halfway between two integers. *)
Definition is_tie (q : Q) : Prop :=
  2 * (Qnum q mod Zpos (Qden q)) = Zpos (Qden q).

End Spec.

(** ** Start-up: log file, configuration, connection *)

Module Setup.

(** [str.replace(old, new)] for one-character [old] and [new]. *)
Fixpoint replace_char (old new : ascii) (s : string) : string :=
  match s with
  | EmptyString => EmptyString
  | String c s' =>
      String (if Ascii.eqb c old then new else c) (replace_char old new s')
  end.

(** Line 72: [f"{asset_name}.log".replace("/", "_").replace(":", "_")] *)
Definition log_file_name (asset_name : string) : string :=
  replace_char ":" "_" (replace_char "/" "_" (asset_name ++ ".log")).

(** Line 73: the path handed to [logging.FileHandler]. *)
Definition log_file_path (asset_name : string) : string :=
  "log/" ++ log_file_name asset_name.

Fixpoint contains_char (c : ascii) (s : string) : bool :=
  match s with
  | EmptyString => false
  | String c' s' => Ascii.eqb c' c || contains_char c s'
  end.

(** [str.lower] on the ASCII letters; other bytes stay.  On the field
    names of the table, and for the test of a text against ['true'], this
    is [str.lower]: no character outside ASCII lower-cases to one of the
    letters t, r, u, e. *)
Definition lower_char (c : ascii) : ascii :=
  let n := nat_of_ascii c in
  if Nat.leb 65 n && Nat.leb n 90 then ascii_of_nat (n + 32) else c.

Fixpoint lower (s : string) : string :=
  match s with
  | EmptyString => EmptyString
  | String c s' => String (lower_char c) (lower s')
  end.

(** A Python dict with string keys, in insertion order. *)
Definition dict (A : Type) : Type := list (string * A).

Fixpoint dict_get {A} (k : string) (d : dict A) : option A :=
  match d with
  | [] => None
  | (k', v) :: d' => if String.eqb k' k then Some v else dict_get k d'
  end.

(** [d[k] = v]: the entry is replaced in place, or appended. *)
Fixpoint dict_set {A} (k : string) (v : A) (d : dict A) : dict A :=
  match d with
  | [] => [(k, v)]
  | (k', v') :: d' =>
      if String.eqb k' k then (k, v) :: d' else (k', v') :: dict_set k v d'
  end.

(** The values of the dict of [get_env_data]: the strings of the
    environment, and the bool that replaces ['LOG_']. *)
Inductive env_value : Type :=
| EnvStr (s : string)
| EnvBool (b : bool).

(** [get_env_data], the process environment given. *)
Definition get_env_data (os_environ : dict string) : dict env_value :=
  let env_data := map (fun kv => (fst kv, EnvStr (snd kv))) os_environ in
  match dict_get "LOG_" env_data with
  | Some (EnvStr v) =>
      dict_set "LOG_" (EnvBool (String.eqb (lower v) "true")) env_data
  | _ => env_data
  end.

Inductive field_type : Type := TStr | TInt.

(** The table [required_fields] of [_load_config], in its order. *)
Definition required_fields : list (string * field_type) :=
  [("API_USERNAME", TStr); ("API_PASSWORD", TStr); ("START_BET", TInt);
   ("MAX_MARTINGEL", TInt); ("EXPIRATION", TInt);
   ("API_BALANCE", TStr)]%string.

Inductive cfg_value : Type :=
| CStr (s : string)
| CInt (n : Z).

(** The two [ValueError]s of [_load_config]: its own, and that of [int]. *)
Inductive config_error : Type :=
| MissingField (field : string)
| InvalidLiteral (text : string).

(** [field_type(value)], [int] on a string being the builtin [py_int]. *)
Definition convert (py_int : string -> option Z) (t : field_type)
    (v : env_value) : config_error + cfg_value :=
  match t, v with
  | TStr, EnvStr s => inr (CStr s)
  | TStr, EnvBool true => inr (CStr "True")
  | TStr, EnvBool false => inr (CStr "False")
  | TInt, EnvStr s =>
      match py_int s with
      | Some n => inr (CInt n)
      | None => inl (InvalidLiteral s)
      end
  | TInt, EnvBool b => inr (CInt (if b then 1 else 0))
  end.

(** The loop of [_load_config] over the fields left, [config] being the
    dict built so far. *)
Fixpoint load_fields (py_int : string -> option Z)
    (fields : list (string * field_type)) (env_data : dict env_value)
    (config : dict cfg_value) : config_error + dict cfg_value :=
  match fields with
  | [] => inr config
  | (field, t) :: rest =>
      match dict_get field env_data with
      | None => inl (MissingField field)
      | Some v =>
          match convert py_int t v with
          | inl e => inl e
          | inr c =>
              load_fields py_int rest env_data
                (dict_set (lower field) c config)
          end
      end
  end.

(** What start-up logs. *)
Inductive setup_event : Type :=
| ErrConfiguration (e : config_error)   (* "Configuration error: ..." *)
| InfoConnectionFailed (reason : string) (* "Connection failed: ..." *)
| InfoConnected               (* "Successfully connected to IQ Option" *)
| InfoSwitched (balance : float)  (* "Switched to practice account. ..." *)
| ErrSwitchFailed (e : exn)       (* "Failed to switch account: ..." *)
| ErrConnectionInit (e : exn).    (* "Connection initialization failed: ..." *)

(** [_load_config]: the attributes of the [Config] object, or [None] after
    the error is logged. *)
Definition _load_config (py_int : string -> option Z)
    (os_environ : dict string)
  : list setup_event * option (dict cfg_value) :=
  match load_fields py_int required_fields (get_env_data os_environ) [] with
  | inr config => ([], Some config)
  | inl e => ([ErrConfiguration e], None)
  end.

(** What the broker's session answers at start-up. *)
Record account_api : Type := {
  connect : result (bool * string);
  change_balance : string -> result unit;
  balance : result float
}.

(** The calls start-up makes to the session. *)
Inductive api_call : Type :=
| CallConnect (username password : string)
| CallChangeBalance (mode : string)
| CallGetBalance.

(** [_switch_to_practice_account] *)
Definition _switch_to_practice_account (api_balance : string)
    (acct : account_api) : list setup_event * list api_call :=
  match change_balance acct api_balance with
  | Raise e => ([ErrSwitchFailed e], [CallChangeBalance api_balance])
  | Ok _ =>
      match balance acct with
      | Raise e =>
          ([ErrSwitchFailed e],
           [CallChangeBalance api_balance; CallGetBalance])
      | Ok b =>
          ([InfoSwitched b], [CallChangeBalance api_balance; CallGetBalance])
      end
  end.

(** [_initialize_connection] *)
Definition _initialize_connection (username password api_balance : string)
    (acct : account_api) : list setup_event * list api_call :=
  match connect acct with
  | Raise e => ([ErrConnectionInit e], [CallConnect username password])
  | Ok (connected, reason) =>
      let (l, calls) := _switch_to_practice_account api_balance acct in
      ((if connected then [] else [InfoConnectionFailed reason])
         ++ InfoConnected :: l,
       CallConnect username password :: calls)
  end.

(** The attributes of a [Config] object that start-up reads. *)
Definition config_object (config : dict cfg_value) (select_asset : string)
  : option (string * string * Stake.config) :=
  match dict_get "api_username" config, dict_get "api_password" config,
        dict_get "start_bet" config, dict_get "max_martingel" config,
        dict_get "expiration" config, dict_get "api_balance" config with
  | Some (CStr u), Some (CStr p), Some (CInt sb), Some (CInt mx),
    Some (CInt ex), Some (CStr ab) =>
      Some (u, p, {| start_bet := sb; max_martingel := mx;
                     select_asset := select_asset; expiration := ex;
                     api_balance := ab |})
  | _, _, _, _, _, _ => None
  end.

(** How the constructor ends. *)
Inductive constructed : Type :=
| AttributeError             (* ['NoneType' object has no attribute ...] *)
| Constructed (cfg : Stake.config) (t : trader).

(** [IQOptionTrader.__init__] from line 40 on, the log handlers being in
    place: the configuration, the fields, the connection. *)
Definition IQOptionTrader (py_int : string -> option Z)
    (os_environ : dict string) (acct : account_api) (SELECT_ASSET : string)
  : list setup_event * list api_call * constructed :=
  let (l, loaded) := _load_config py_int os_environ in
  match loaded with
  | None => (l, [], AttributeError)
  | Some config =>
      match config_object config SELECT_ASSET with
      | None => (l, [], AttributeError)
      | Some (username, password, cfg) =>
          let (l', calls) :=
            _initialize_connection username password (api_balance cfg)
              acct in
          (l ++ l', calls, Constructed cfg (__init__ cfg))
      end
  end.

(** A decimal reading of [int] for start-up examples: an optional minus
    sign and ASCII digits. *)
Fixpoint digits_value (acc : Z) (s : string) : option Z :=
  match s with
  | EmptyString => Some acc
  | String c s' =>
      let n := nat_of_ascii c in
      if Nat.leb 48 n && Nat.leb n 57
      then digits_value (10 * acc + Z.of_nat (n - 48)) s'
      else None
  end.

Definition int_of_decimal (s : string) : option Z :=
  match s with
  | EmptyString => None
  | String "-" EmptyString => None
  | String "-" s' => option_map Z.opp (digits_value 0 s')
  | _ => digits_value 0 s
  end.

End Setup.

Import Setup.

(** ** The trading loop *)

Module Run.

(** What happens at one turn of [while True]: the broker answers a cycle,
    or the user interrupts during the pause. *)
Inductive tick : Type :=
| Tick (b : broker)
| KeyboardInterrupt.

(** What a run has done after the turns given. *)
Record run_outcome : Type := {
  final : trader;
  orders : list (Z * trade_direction);
  run_log : list log_event;
  stopped_by_user : bool
}.

Section WithPandas.

Variable pd : pandas.

(** [run], for the turns given: [create_order] again and again, until an
    interrupt. *)
Fixpoint run (cfg : config) (s : trader) (ticks : list tick) : run_outcome :=
  match ticks with
  | [] =>
      {| final := s; orders := []; run_log := []; stopped_by_user := false |}
  | KeyboardInterrupt :: _ =>
      {| final := s; orders := []; run_log := []; stopped_by_user := true |}
  | Tick b :: rest =>
      let o := create_order pd cfg s b in
      let r := run cfg (trader_after o) rest in
      {| final := final r;
         orders := buy_calls o ++ orders r;
         run_log := logged o ++ run_log r;
         stopped_by_user := stopped_by_user r |}
  end.

End WithPandas.

(** The fields of the trader that the stake controller owns. *)
Definition stake_fields (s : trader) : Z * Z * float * float * Z * Z :=
  (amount s, mm s, TempLose s, MaxLose s, gameWin s, gameLose s).

(** A state the controller may be in: depth between 0 and the cap, stake
    at least the starting stake and equal to it at depth 0. *)
Definition controlled (cfg : config) (s : trader) : Prop :=
  0 <= mm s <= Z.max 0 (max_martingel cfg)
  /\ start_bet cfg <= amount s
  /\ (mm s = 0 -> amount s = start_bet cfg).

(** A number (not NaN) that is zero or has the sign [sx]: with [true], a
    float that is zero, negative or minus infinity. *)
Definition has_sign (sx : bool) (x : float) : Prop :=
  match x with
  | S754_zero _ => True
  | S754_finite s _ _ | S754_infinity s => s = sx
  | S754_nan => False
  end.

(** The stakes of a streak of losses: each order is placed with the stake
    before it, and its rounded increment [r] is added for the next. *)
Fixpoint ladder (stake : Z) (rs : list Z) : list Z :=
  match rs with
  | [] => []
  | r :: rs' => stake :: ladder (stake + r) rs'
  end.

Definition Zsum (l : list Z) : Z := fold_right Z.add 0 l.

(** The largest finite float, about 1.8e308. *)
Definition huge_float : float := SFmax_float prec emax.

Definition is_info_win (ev : log_event) : bool :=
  match ev with InfoWin _ => true | _ => false end.

Definition is_info_loss (ev : log_event) : bool :=
  match ev with InfoLoss _ => true | _ => false end.

(** All keys of the candle are there. *)
Definition complete (c : candle) : Prop :=
  c_id c <> None /\ c_open c <> None /\ c_close c <> None
  /\ c_min c <> None /\ c_max c <> None.

(** The ids the candles have, in order. *)
Definition candle_ids (cs : list candle) : list Z :=
  flat_map (fun c => match c_id c with Some i => [i] | None => [] end) cs.

(** The price keys of a candle, and the price columns of a row: ['min']
    is the low and ['max'] the high. *)
Definition candle_prices (c : candle)
  : option float * option float * option float * option float :=
  (c_open c, c_close c, c_min c, c_max c).

Definition row_prices (r : price_row)
  : option float * option float * option float * option float :=
  (Some (p_open r), Some (p_close r), Some (p_low r), Some (p_high r)).

(** What pandas documents of a rolling window of [w]: no value at the
    first [w - 1] positions. *)
Definition warms_up (pd : pandas) : Prop :=
  forall w l i, (i < w - 1)%nat ->
    is_nan (nth i (rolling_mean pd w l) fnan) = true.

(** Sample start-up data. *)
Definition sample_environ : dict string :=
  [("PATH", "/usr/bin"); ("API_USERNAME", "user@example.org");
   ("API_PASSWORD", "secret"); ("START_BET", "10");
   ("MAX_MARTINGEL", "3"); ("EXPIRATION", "1");
   ("API_BALANCE", "PRACTICE"); ("LOG_", "True")]%string.

Definition refusing_account : account_api :=
  {| connect := Ok (false, "invalid credentials"%string);
     change_balance := fun _ => Ok tt;
     balance := Ok (of_Z 1000) |}.

(** A broker whose order is refused. *)
Definition rejecting_broker (cs : list candle) : broker :=
  {| get_candles := Ok cs;
     get_balance := Ok (of_Z 1000);
     buy := fun _ _ => Ok (false, 0);
     check_win_v3 := fun _ => Ok (of_Z 5) |}.

End Run.

Import Run.

(** * Properties *)

(** ** Floats and rounding *)

Section FloatFacts.

Lemma binary_round_aux_sign s m e l :
  match binary_round_aux prec emax s m e l with
  | S754_finite s' _ _ => s' = s
  | _ => True
  end.
Proof.
  unfold binary_round_aux.
  destruct (shr_fexp prec emax m e l) as [mrs' e'].
  destruct (shr_fexp prec emax _ e' loc_Exact) as [mrs'' e''].
  destruct (shr_m mrs''); auto.
  destruct (Z.leb e'' (emax - prec)); auto.
Qed.

Lemma binary_round_aux_not_negative m e l :
  not_negative (binary_round_aux prec emax false m e l).
Proof.
  pose proof (binary_round_aux_sign false m e l) as H.
  destruct (binary_round_aux prec emax false m e l); simpl; auto.
  subst; exact I.
Qed.

Lemma fmul_not_negative m e m' e' :
  not_negative (fmul (S754_finite false m e) (S754_finite false m' e')).
Proof. apply binary_round_aux_not_negative. Qed.

Lemma fadd_not_negative x y :
  not_negative x -> not_negative y -> not_negative (fadd x y).
Proof.
  destruct x as [sx|sx| |sx mx ex], y as [sy|sy| |sy my ey];
    try destruct sx; try destruct sy; simpl; auto; try contradiction.
  intros _ _. unfold fadd, SFadd, binary_normalize, binary_round. simpl.
  destruct (shl_align _ _ _) as [mz ez].
  apply binary_round_aux_not_negative.
Qed.

Lemma flt_zero_inv w :
  flt w fzero = true ->
  (exists m e, w = S754_finite true m e) \/ w = S754_infinity true.
Proof.
  destruct w as [s|s| |s m e]; try destruct s; simpl;
    try discriminate; eauto.
Qed.

Lemma increment_not_negative w :
  not_negative (fadd (fabs w) (fmul (fabs w) f015)).
Proof.
  destruct w as [s|s| |s m e]; apply fadd_not_negative;
    try exact I.
  apply (fmul_not_negative m e).
Qed.

Lemma round_half_even_div_nonneg n d :
  0 <= n -> 0 < d -> 0 <= round_half_even_div n d.
Proof.
  intros Hn Hd. unfold round_half_even_div.
  assert (0 <= n / d) by (apply Z.div_pos; lia).
  destruct (2 * (n mod d) ?= d); try destruct (Z.even (n / d)); lia.
Qed.

Lemma pyround_nonneg x r :
  not_negative x -> pyround x = Ok r -> 0 <= r.
Proof.
  destruct x as [s|s| |s m e]; simpl; try discriminate.
  - intros _ H; inversion H; subst. vm_compute. discriminate.
  - destruct s; [contradiction|]. intros _ H. inversion H; subst; clear H.
    unfold round_half_even, inject_Z, cond_Zopp.
    destruct e as [|p|p]; cbn [Qnum Qden];
      apply round_half_even_div_nonneg; try lia.
    + vm_compute; discriminate.
    + pose proof (Z.pow_nonneg 2 (Zpos p)) as Hp.
      destruct (2 ^ Z.pos p); lia.
Qed.

(** [round_half_even_div n d] is an integer nearest to [n / d]. *)
Lemma round_half_even_div_nearest n d :
  0 < d ->
  - d <= 2 * (n - d * round_half_even_div n d) <= d.
Proof.
  intros Hd. unfold round_half_even_div.
  pose proof (Z.div_mod n d ltac:(lia)) as Hn.
  pose proof (Z.mod_pos_bound n d Hd) as Hr.
  destruct (Z.compare_spec (2 * (n mod d)) d);
    try destruct (Z.even (n / d)); nia.
Qed.

(** The literal [.15] is the binary64 nearest to 15/100: within half a
    unit in the last place, 2^-56. *)
Lemma f015_nearest :
  f015 = S754_finite false 5404319552844595 (-55)
  /\ 2 * Z.abs (100 * 5404319552844595 - 15 * 2 ^ 55) <= 100.
Proof. split; [reflexivity|]. vm_compute. discriminate. Qed.

Lemma loss_increment_nonneg w r : loss_increment w = Ok r -> 0 <= r.
Proof. apply pyround_nonneg, increment_not_negative. Qed.

Lemma pyround_SF2Q x r :
  pyround x = Ok r <->
  exists q, SF2Q x = Some q /\ r = round_half_even q.
Proof.
  destruct x as [sx|sx| |sx m e]; simpl; split;
    try (intros H; inversion H; eauto; fail);
    try (intros [q [H _]]; discriminate);
    intros [q [H ->]]; inversion H; reflexivity.
Qed.

(** Comparison of floats is antisymmetric. *)
Lemma SFcompare_antisym a b :
  SFcompare b a = option_map CompOpp (SFcompare a b).
Proof.
  destruct a as [sa|sa| |sa ma ea], b as [sb|sb| |sb mb eb];
    try destruct sa; try destruct sb; simpl; try reflexivity;
    rewrite (Z.compare_antisym ea eb); destruct (ea ?= eb); simpl;
    try reflexivity;
    rewrite (Pos.compare_cont_antisym ma mb Eq); reflexivity.
Qed.

Lemma flt_antisym a b : flt a b = true -> flt b a = false.
Proof.
  unfold flt, SFltb. rewrite (SFcompare_antisym a b).
  destruct (SFcompare a b) as [[]|]; simpl; congruence.
Qed.

Lemma feq_not_lt a b :
  feq a b = true -> flt a b = false /\ flt b a = false.
Proof.
  unfold feq, flt, SFeqb, SFltb. rewrite (SFcompare_antisym a b).
  destruct (SFcompare a b) as [[]|]; simpl; try discriminate; auto.
Qed.

Lemma SFcompare_not_nan a b :
  is_nan a = false -> is_nan b = false -> SFcompare a b <> None.
Proof.
  destruct a as [sa|sa| |sa ma ea], b as [sb|sb| |sb mb eb];
    simpl; try discriminate; intros _ _; try destruct sa;
    try destruct sb; discriminate.
Qed.

(** Two numbers neither of which is below the other are equal. *)
Lemma feq_of_not_lt a b :
  is_nan a = false -> is_nan b = false ->
  flt a b = false -> flt b a = false -> feq a b = true.
Proof.
  intros Ha Hb. pose proof (SFcompare_not_nan a b Ha Hb) as Hc.
  unfold feq, flt, SFeqb, SFltb. rewrite (SFcompare_antisym a b).
  destruct (SFcompare a b) as [[]|]; simpl; congruence.
Qed.

(** A win by the specification's words is a win by the code's test. *)
Lemma fle_zero_not_loss w : SFleb fzero w = true -> flt w fzero = false.
Proof.
  unfold flt, SFltb, SFleb. rewrite (SFcompare_antisym fzero w).
  destruct (SFcompare fzero w) as [[]|]; simpl; congruence.
Qed.

(** Rounding commutes with adding an integer, except at a tie. *)
Lemma round_half_even_div_shift n d a :
  0 < d -> 2 * (n mod d) <> d ->
  round_half_even_div (n + a * d) d = a + round_half_even_div n d.
Proof.
  intros Hd Htie. unfold round_half_even_div.
  rewrite Z.div_add, Z.mod_add by lia.
  destruct (Z.compare_spec (2 * (n mod d)) d); lia.
Qed.

Lemma round_half_up_div_off_tie n d :
  0 < d -> 2 * (n mod d) <> d ->
  (2 * n + d) / (2 * d) = round_half_even_div n d.
Proof.
  intros Hd Htie. unfold round_half_even_div.
  pose proof (Z.div_mod n d ltac:(lia)) as Hn.
  pose proof (Z.mod_pos_bound n d Hd) as Hr.
  destruct (Z.compare_spec (2 * (n mod d)) d) as [E|L|G];
    [contradiction| |]; symmetry.
  - apply (Z.div_unique _ _ _ (2 * (n mod d) + d)); lia.
  - apply (Z.div_unique _ _ _ (2 * (n mod d) - d)); lia.
Qed.

Lemma round_off_tie (a : Z) (x : Q) :
  ~ Spec.is_tie x ->
  round_half_even (inject_Z a + x) = a + round_half_even x /\
  round_half_up (inject_Z a + x) = a + round_half_even x.
Proof.
  destruct x as [n d]. unfold Spec.is_tie, round_half_even, round_half_up.
  cbn [Qnum Qden Qplus inject_Z]. intros Htie.
  replace (a * Z.pos d + n * 1) with (n + a * Z.pos d) by lia.
  change (1 * d)%positive with d.
  rewrite <- (round_half_even_div_shift n (Z.pos d) a) by (lia || exact Htie).
  split; [reflexivity|].
  apply round_half_up_div_off_tie; [lia|].
  rewrite Z.mod_add by lia. exact Htie.
Qed.

End FloatFacts.

(** ** The stake controller's transitions *)

Section Transitions.

Variable cfg : config.

Lemma handle_loss s win :
  flt win fzero = true ->
  _handle_order_result cfg s win =
    match loss_increment win with
    | Raise e => ([InfoLoss win], Raise e)
    | Ok r =>
        let s1 := loss_update s r win in
        if max_martingel cfg <? mm s + 1
        then ([InfoLoss win; InfoMaxMartingale], Ok (cap_reset cfg s1))
        else ([InfoLoss win], Ok s1)
    end.
Proof.
  intros Hw. unfold _handle_order_result. rewrite Hw.
  destruct (loss_increment win) as [r|e]; [|reflexivity].
  cbn [loss_update mm]. destruct (max_martingel cfg <? mm s + 1); reflexivity.
Qed.

Lemma handle_win s win :
  flt win fzero = false ->
  _handle_order_result cfg s win = ([InfoWin win], Ok (win_reset cfg s)).
Proof.
  intros Hw. unfold _handle_order_result. rewrite Hw. reflexivity.
Qed.

(** The three ways a transition ends in a new state. *)
Lemma handle_cases s win s' :
  snd (_handle_order_result cfg s win) = Ok s' ->
  (flt win fzero = false /\ s' = win_reset cfg s)
  \/ (exists r, flt win fzero = true /\ loss_increment win = Ok r /\
                mm s + 1 <= max_martingel cfg /\
                s' = loss_update s r win)
  \/ (exists r, flt win fzero = true /\ loss_increment win = Ok r /\
                max_martingel cfg < mm s + 1 /\
                s' = cap_reset cfg (loss_update s r win)).
Proof.
  destruct (flt win fzero) eqn:Hw.
  - rewrite (handle_loss s win Hw).
    destruct (loss_increment win) as [r|e]; [|discriminate].
    cbv zeta.
    destruct (Z.ltb_spec (max_martingel cfg) (mm s + 1)) as [Hcap|Hcap];
      cbn [snd]; intros H; inversion H; subst; right; [right|left];
      exists r; auto.
  - rewrite (handle_win s win Hw). cbn [snd].
    intros H; inversion H; auto.
Qed.

(** What holds of every state the controller reaches, whatever the
    outcomes are restricted to. *)
Lemma reachable_invariant P s :
  reachable_with P cfg s ->
  0 <= mm s /\ start_bet cfg <= amount s
  /\ (mm s = 0 -> amount s = start_bet cfg).
Proof.
  induction 1 as [|s win s' Hs IH _ Hstep].
  - cbn. lia.
  - destruct IH as (Hmm & Hge & Hbase).
    destruct (handle_cases _ _ _ Hstep)
      as [[_ ->]|[(r & _ & Hr & _ & ->)|(r & _ & Hr & _ & ->)]]; cbn.
    + lia.
    + pose proof (loss_increment_nonneg _ _ Hr). lia.
    + lia.
Qed.

Lemma recovering_strict P s :
  (forall w, P w -> flt w fzero = true -> raises_stake w) ->
  reachable_with P cfg s ->
  0 < mm s -> start_bet cfg < amount s.
Proof.
  intros HP Hs.
  induction Hs as [|s win s' Hs IH Hw Hstep].
  - cbn. lia.
  - destruct (reachable_invariant _ _ Hs) as (Hmm & Hge & Hbase).
    destruct (handle_cases _ _ _ Hstep)
      as [[_ ->]|[(r & Hl & Hr & _ & ->)|(r & _ & Hr & _ & ->)]]; cbn;
      try lia.
    intros _. pose proof (HP _ Hw Hl _ Hr). lia.
Qed.

End Transitions.

(** C1, as amended.  On a loss the transition evaluates
    [round(|L| + |L| * 0.15)] in binary64 with ties to even; if that raises,
    so does the transition; otherwise, [r] being the result, the loss rule
    gives stake + r, depth + 1, losses + 1 and streak total + L, which is
    the state after the transition unless the depth now exceeds the cap.
    When the increment is not halfway between two integers, stake + r is
    the rounding (ties to even or ties up alike) of stake plus the
    increment. *)
Theorem loss_transition (cfg : config) (s : trader) (win : float) :
  flt win fzero = true ->
  snd (_handle_order_result cfg s win) =
    match loss_increment win with
    | Raise e => Raise e
    | Ok r =>
        Ok (if max_martingel cfg <? mm s + 1
            then cap_reset cfg (loss_update s r win)
            else loss_update s r win)
    end
  /\ forall r, loss_increment win = Ok r ->
       amount (loss_update s r win) = amount s + r
       /\ mm (loss_update s r win) = mm s + 1
       /\ gameLose (loss_update s r win) = gameLose s + 1
       /\ TempLose (loss_update s r win) = fadd (TempLose s) win
       /\ (mm s + 1 <= max_martingel cfg ->
           snd (_handle_order_result cfg s win) = Ok (loss_update s r win))
       /\ (forall x,
             SF2Q (fadd (fabs win) (fmul (fabs win) f015)) = Some x ->
             ~ Spec.is_tie x ->
             amount (loss_update s r win)
               = round_half_even (inject_Z (amount s) + x)
             /\ amount (loss_update s r win)
               = round_half_up (inject_Z (amount s) + x)).
Proof.
  intros Hw. rewrite (handle_loss cfg s win Hw). split.
  - destruct (loss_increment win); [|reflexivity].
    cbv zeta. destruct (max_martingel cfg <? mm s + 1); reflexivity.
  - intros r Hr. rewrite Hr. cbn [amount mm gameLose TempLose loss_update].
    repeat split; try reflexivity.
    + intros Hcap. cbv zeta.
      destruct (Z.ltb_spec (max_martingel cfg) (mm s + 1)); [lia|reflexivity].
    + apply pyround_SF2Q in Hr. destruct Hr as (q & Hq & ->).
      rewrite H in Hq. inversion Hq; subst.
      symmetry. apply round_off_tie. assumption.
    + apply pyround_SF2Q in Hr. destruct Hr as (q & Hq & ->).
      rewrite H in Hq. inversion Hq; subst.
      symmetry. apply round_off_tie. assumption.
Qed.

Lemma loss_transition_witness :
  flt (of_Z (-10)) fzero = true
  /\ snd (_handle_order_result cfg10 (__init__ cfg10) (of_Z (-10)))
     = Ok (loss_update (__init__ cfg10) 12 (of_Z (-10))).
Proof.
  split; [reflexivity|].
  exact (proj1 (loss_transition cfg10 (__init__ cfg10) (of_Z (-10)) eq_refl)).
Defined.

(** C1 as stated fails.  With ties to even (Python's [round]): from stake
    11 a loss of 10 gives 11 + round(11.5) = 23, not round(22.5) = 22.  With
    ties up: from stake 10 a loss of 30 gives 10 + round(34.5) = 44, not
    round(44.5) = 45.  And at the cap the depth is not incremented: from
    depth 3 with cap 3 a loss leaves depth 0 and the starting stake. *)
Lemma loss_transition_counterexample :
  (option_map amount
     (match snd (_handle_order_result cfg11 (__init__ cfg11) (of_Z (-10))) with
      | Ok s' => Some s' | Raise _ => None end) = Some 23
   /\ Spec.loss_stake round_half_even 11 (of_Z (-10)) = Some 22)
  /\ (option_map amount
       (match snd (_handle_order_result cfg10 (__init__ cfg10) (of_Z (-30))) with
        | Ok s' => Some s' | Raise _ => None end) = Some 44
     /\ Spec.loss_stake round_half_up 10 (of_Z (-30)) = Some 45)
  /\ (option_map (fun s' => (amount s', mm s'))
       (match snd (_handle_order_result cfg10 at_cap (of_Z (-10))) with
        | Ok s' => Some s' | Raise _ => None end) = Some (10, 0)
     /\ mm at_cap + 1 = 4).
Proof. vm_compute. repeat split. Qed.

(** C2.  When a loss takes the depth above the cap, the increment of the
    loss rule is still evaluated, before the cap is looked at: if rounding
    it raises, the transition raises with the loss line logged and neither
    reset nor its line; otherwise the increment is the rounding, ties to
    even, of the float [abs(win) + abs(win) * .15], it is added to the
    stake, and then the stake goes back to the starting stake and the
    depth to 0, the streak total keeping the loss just added. *)
Theorem cap_reset_after_loss (cfg : config) (s : trader) (win : float) :
  flt win fzero = true ->
  max_martingel cfg < mm s + 1 ->
  match loss_increment win with
  | Raise e => _handle_order_result cfg s win = ([InfoLoss win], Raise e)
  | Ok r =>
      (exists x, SF2Q (fadd (fabs win) (fmul (fabs win) f015)) = Some x
                 /\ r = round_half_even x)
      /\ amount (loss_update s r win) = amount s + r
      /\ mm (loss_update s r win) = mm s + 1
      /\ _handle_order_result cfg s win
         = ([InfoLoss win; InfoMaxMartingale],
            Ok (cap_reset cfg (loss_update s r win)))
      /\ amount (cap_reset cfg (loss_update s r win)) = start_bet cfg
      /\ mm (cap_reset cfg (loss_update s r win)) = 0
      /\ TempLose (cap_reset cfg (loss_update s r win))
         = fadd (TempLose s) win
      /\ gameLose (cap_reset cfg (loss_update s r win)) = gameLose s + 1
  end.
Proof.
  intros Hw Hcap. rewrite (handle_loss cfg s win Hw).
  destruct (loss_increment win) as [r|e] eqn:Hr; [|reflexivity].
  cbv zeta.
  destruct (Z.ltb_spec (max_martingel cfg) (mm s + 1)) as [_|Hle]; [|lia].
  split; [exact (proj1 (pyround_SF2Q _ r) Hr)|]. repeat split.
Qed.

Lemma cap_reset_after_loss_witness :
  (flt (of_Z (-50)) fzero = true
   /\ max_martingel cfg10 < mm at_cap + 1
   /\ loss_increment (of_Z (-50)) = Ok 58
   /\ amount (loss_update at_cap 58 (of_Z (-50))) = amount at_cap + 58
   /\ _handle_order_result cfg10 at_cap (of_Z (-50))
      = ([InfoLoss (of_Z (-50)); InfoMaxMartingale],
         Ok (cap_reset cfg10 (loss_update at_cap 58 (of_Z (-50))))))
  /\ (flt (SFopp huge_float) fzero = true
      /\ max_martingel cfg10 < mm at_cap + 1
      /\ loss_increment (SFopp huge_float) = Raise OverflowError
      /\ _handle_order_result cfg10 at_cap (SFopp huge_float)
         = ([InfoLoss (SFopp huge_float)], Raise OverflowError)).
Proof.
  assert (E1 : loss_increment (of_Z (-50)) = Ok 58) by reflexivity.
  assert (E2 : loss_increment (SFopp huge_float) = Raise OverflowError)
    by reflexivity.
  pose proof (cap_reset_after_loss cfg10 at_cap (of_Z (-50))
                eq_refl eq_refl) as H1.
  pose proof (cap_reset_after_loss cfg10 at_cap (SFopp huge_float)
                eq_refl eq_refl) as H2.
  rewrite E1 in H1. rewrite E2 in H2.
  destruct H1 as (_ & Ha & _ & Hh & _).
  split.
  - split; [reflexivity|]. split; [reflexivity|]. split; [exact E1|].
    split; [exact Ha|exact Hh].
  - split; [reflexivity|]. split; [reflexivity|]. split; [exact E2|].
    exact H2.
Defined.

(** C3.  A profit/loss of zero or more resets the controller from any
    state: starting stake, depth 0, streak total 0, one more win; the worst
    streak total and the loss count stay. *)
Theorem win_transition (cfg : config) (s : trader) (win : float) :
  SFleb fzero win = true ->
  _handle_order_result cfg s win = ([InfoWin win], Ok (win_reset cfg s))
  /\ amount (win_reset cfg s) = start_bet cfg
  /\ mm (win_reset cfg s) = 0
  /\ TempLose (win_reset cfg s) = fzero
  /\ gameWin (win_reset cfg s) = gameWin s + 1
  /\ MaxLose (win_reset cfg s) = MaxLose s
  /\ gameLose (win_reset cfg s) = gameLose s.
Proof.
  intros Hw. rewrite (handle_win cfg s win (fle_zero_not_loss win Hw)).
  repeat split.
Qed.

Lemma win_transition_witness :
  SFleb fzero fzero = true
  /\ _handle_order_result cfg10 at_cap fzero
     = ([InfoWin fzero], Ok (win_reset cfg10 at_cap)).
Proof.
  split; [reflexivity|].
  exact (proj1 (win_transition cfg10 at_cap fzero eq_refl)).
Defined.




(** C7, as amended.  Every reachable state is either baseline (depth 0,
    starting stake) or has a positive depth and a stake of at least the
    starting stake; the stake is above it when every loss the broker
    reports has a rounded increment of at least 1, whatever its wins. *)
Theorem stake_states (P : float -> Prop) (cfg : config) (s : trader) :
  reachable_with P cfg s ->
  (mm s = 0 /\ amount s = start_bet cfg)
  \/ (0 < mm s /\ start_bet cfg <= amount s
      /\ ((forall w, P w -> flt w fzero = true -> raises_stake w) ->
          start_bet cfg < amount s)).
Proof.
  intros Hs. destruct (reachable_invariant cfg P s Hs) as (Hmm & Hge & Hbase).
  destruct (Z.eq_dec (mm s) 0) as [E|N]; [left; auto|right].
  repeat split; try lia.
  intros HP. apply (recovering_strict cfg P s HP Hs). lia.
Qed.

Lemma reachable_after_small_loss : reachable cfg10 after_small_loss.
Proof.
  apply (reach_step _ cfg10 (__init__ cfg10) (dec (-25) 2)).
  - apply reach_init.
  - exact I.
  - reflexivity.
Defined.

Lemma stake_states_witness :
  reachable_with zero_or_minus_ten cfg10 after_win_and_loss
  /\ (forall w, zero_or_minus_ten w -> flt w fzero = true -> raises_stake w)
  /\ 0 < mm after_win_and_loss
  /\ start_bet cfg10 < amount after_win_and_loss.
Proof.
  assert (Hr : reachable_with zero_or_minus_ten cfg10 after_win_and_loss).
  { apply (reach_step _ cfg10 (win_reset cfg10 (__init__ cfg10))
             (of_Z (-10))).
    - apply (reach_step _ cfg10 (__init__ cfg10) fzero).
      + apply reach_init.
      + left. reflexivity.
      + reflexivity.
    - right. reflexivity.
    - reflexivity. }
  assert (HP : forall w, zero_or_minus_ten w -> flt w fzero = true ->
                         raises_stake w).
  { intros w [->| ->] Hw; [discriminate Hw|].
    intros r Hr12.
    assert (E : Ok r = Ok 12) by (rewrite <- Hr12; reflexivity).
    inversion E. lia. }
  split; [exact Hr|]. split; [exact HP|]. split; [reflexivity|].
  destruct (stake_states zero_or_minus_ten cfg10 after_win_and_loss Hr)
    as [(Hm & _)|(_ & _ & Hstrict)].
  - discriminate Hm.
  - exact (Hstrict HP).
Defined.

(** C7 as stated fails: after one loss of 0.25 from the start the depth is
    1 and the stake is still the starting stake, round(0.2875) being 0. *)
Lemma stake_states_counterexample :
  reachable cfg10 after_small_loss
  /\ 0 < mm after_small_loss
  /\ ~ start_bet cfg10 < amount after_small_loss.
Proof.
  split; [exact reachable_after_small_loss|].
  split; [reflexivity|]. vm_compute. discriminate.
Qed.



(** ** The market analysis *)

Section Analysis.

Variable pd : pandas.

Lemma map_result_length {A B} (f : A -> result B) l bs :
  map_result f l = Ok bs -> List.length bs = List.length l.
Proof.
  revert bs. induction l as [|a l IH]; intros bs; cbn.
  - intros H; inversion H; reflexivity.
  - destruct (f a); [|discriminate].
    destruct (map_result f l); [|discriminate].
    intros H; inversion H; cbn. f_equal. apply IH. reflexivity.
Qed.

Lemma zip_rows_length ids fs :
  (List.length (zip_rows ids fs) <= List.length fs)%nat.
Proof.
  revert fs. induction ids as [|i ids IH]; intros [|f fs]; cbn; try lia.
  specialize (IH fs). lia.
Qed.

Lemma build_frame_rows cs f :
  build_frame pd cs = Ok f ->
  (List.length (rows f) <= List.length cs)%nat
  /\ (rows f <> [] -> columns f = ["open"; "close"; "low"; "high"]%string).
Proof.
  unfold build_frame.
  destruct (map_result price_fields cs) as [fs|] eqn:Hfs; [|discriminate].
  destruct (map_result (fun c => getitem "id" (c_id c)) cs) as [ids|];
    [|discriminate].
  destruct (to_datetime pd ids) as [index|]; [|discriminate].
  destruct (Nat.eqb (List.length index) (List.length fs)); [|discriminate].
  intros H; inversion H; subst; clear H. cbn [rows columns]. split.
  - rewrite <- (map_result_length _ _ _ Hfs). apply zip_rows_length.
  - destruct fs; [|reflexivity].
    destruct index; cbn; congruence.
Qed.

(** [_get_price_data] never raises: it answers either the empty frame,
    with the failure logged, or the frame built, with nothing logged. *)
Lemma get_price_data_cases fetched :
  (exists e,
      _get_price_data pd fetched = ([ErrFetchFailed e], Ok empty_frame))
  \/ (exists cs f, fetched = Ok cs /\ build_frame pd cs = Ok f
                  /\ _get_price_data pd fetched = ([], Ok f)).
Proof.
  destruct fetched as [cs|e]; unfold _get_price_data.
  - destruct (build_frame pd cs) as [f|e] eqn:Hf.
    + right. exists cs, f. auto.
    + left. exists e. reflexivity.
  - left. exists e. reflexivity.
Qed.

Lemma with_indicators_length l :
  List.length (with_indicators pd l) = List.length l.
Proof.
  unfold with_indicators. rewrite length_map, length_combine, length_seq.
  lia.
Qed.

Lemma dropna_length l : (List.length (dropna l) <= List.length l)%nat.
Proof.
  unfold dropna. induction l as [|a l IH]; cbn; [lia|].
  destruct (negb (row_has_nan a)); cbn; lia.
Qed.

Lemma dropna_no_nan (l : list indicator_row) r :
  In r (dropna l) -> is_nan (r_open r) = false /\ is_nan (r_close r) = false.
Proof.
  unfold dropna. rewrite filter_In. intros [_ H].
  apply negb_true_iff in H. unfold row_has_nan in H.
  repeat (apply orb_false_iff in H; destruct H as [H ?]). auto.
Qed.

Lemma iloc_neg_ok {A} (l : list A) k :
  (0 < k <= List.length l)%nat ->
  exists a, iloc_neg l k = Ok a /\ In a l.
Proof.
  intros Hk. unfold iloc_neg.
  destruct (Nat.ltb_spec (List.length l) k) as [Hlt|_]; [lia|].
  destruct (nth_error l (List.length l - k)) as [a|] eqn:Hn.
  - exists a. split; [reflexivity|]. eapply nth_error_In; eauto.
  - apply nth_error_None in Hn. lia.
Qed.

(** With two rows or more left after trimming, no guard fires and
    nothing is logged: the analysis is that of [decide]. *)
Lemma analysis_of_trimmed fetched :
  (2 <= List.length (trimmed_rows pd fetched))%nat ->
  exists latest second,
    iloc_neg (trimmed_rows pd fetched) 1 = Ok latest
    /\ iloc_neg (trimmed_rows pd fetched) 2 = Ok second
    /\ In latest (trimmed_rows pd fetched)
    /\ analysis pd fetched
       = ([], Ok (Some (market_setups second second,
                        close_vs_open latest))).
Proof.
  intros Hlen.
  destruct (iloc_neg_ok (trimmed_rows pd fetched) 1 ltac:(lia))
    as (latest & H1 & Hin).
  destruct (iloc_neg_ok (trimmed_rows pd fetched) 2 ltac:(lia))
    as (second & H2 & _).
  exists latest, second. repeat split; trivial.
  unfold analysis, analyze_body.
  unfold trimmed_rows in *.
  destruct (get_price_data_cases fetched)
    as [(e & Hg)|(cs & f & _ & Hf & Hg)]; rewrite Hg in *; cbn [snd] in *.
  - cbn in Hlen. lia.
  - set (t := dropna (with_indicators pd (rows f))) in *.
    assert (Hrows : (2 <= List.length (rows f))%nat).
    { pose proof (dropna_length (with_indicators pd (rows f))) as Hd.
      rewrite with_indicators_length in Hd. subst t. lia. }
    destruct (build_frame_rows cs f Hf) as (_ & Hcols).
    assert (Hne : rows f <> []) by (destruct (rows f); cbn in *; [lia|congruence]).
    specialize (Hcols Hne).
    cbn [bind]. unfold frame_empty, has_columns. rewrite Hcols.
    destruct (rows f) as [|r0 rs] eqn:Er; [congruence|].
    destruct (Nat.ltb_spec (List.length (r0 :: rs)) 2) as [Hlt|_]; [lia|].
    cbn [orb forallb existsb String.eqb negb andb].
    change (forallb _ _) with true. cbn [negb].
    fold t.
    destruct t as [|t0 ts] eqn:Et; [cbn in Hlen; lia|].
    destruct (Nat.ltb_spec (List.length (t0 :: ts)) 2) as [Hlt|_]; [lia|].
    cbn [orb]. unfold decide. rewrite H1, H2. reflexivity.
Qed.

(** A frame that is empty or has fewer than two rows ends the analysis
    with the generic report. *)
Lemma analyze_short_frame fetched l f :
  _get_price_data pd fetched = (l, Ok f) ->
  frame_empty f || Nat.ltb (List.length (rows f)) 2 = true ->
  _analyze_market pd fetched = (l ++ [ErrEmptyOrShort], Ok None).
Proof.
  intros Hg Hshort. unfold _analyze_market, analysis, analyze_body.
  rewrite Hg. cbn [bind]. rewrite Hshort. cbn.
  rewrite !app_nil_r. reflexivity.
Qed.

Lemma analyze_few_candles cs :
  (List.length cs < 2)%nat ->
  exists l, _analyze_market pd (Ok cs) = (l ++ [ErrEmptyOrShort], Ok None).
Proof.
  intros Hlen.
  destruct (get_price_data_cases (Ok cs))
    as [(e & Hg)|(cs' & f & Hcs & Hf & Hg)].
  - eexists. apply (analyze_short_frame _ _ _ Hg). reflexivity.
  - inversion Hcs; subst cs'. eexists.
    apply (analyze_short_frame _ _ _ Hg).
    destruct (build_frame_rows cs f Hf) as (Hle & _).
    apply orb_true_iff. right. apply Nat.ltb_lt. lia.
Qed.

Lemma analyze_fetch_error e :
  _analyze_market pd (Raise e)
  = ([ErrFetchFailed e; ErrEmptyOrShort], Ok None).
Proof. reflexivity. Qed.

Lemma price_fields_cases c :
  (exists v, price_fields c = Ok v /\ ~ missing_price_field c)
  \/ (exists key, In key price_keys /\ price_fields c = Raise (KeyError key)).
Proof.
  unfold price_fields, missing_price_field, price_keys.
  destruct (c_open c); cbn; [|right; eexists; split; [|reflexivity]; cbn; auto].
  destruct (c_close c); cbn; [|right; eexists; split; [|reflexivity]; cbn; auto].
  destruct (c_min c); cbn; [|right; eexists; split; [|reflexivity]; cbn; auto].
  destruct (c_max c); cbn; [|right; eexists; split; [|reflexivity]; cbn; auto 6].
  left. eexists. split; [reflexivity|]. intros [H|[H|[H|H]]]; discriminate.
Qed.

(** What reading the price keys of a candle gives: an error on the first
    key it lacks. *)
Lemma price_fields_first c :
  match first_missing_key c with
  | Some key =>
      price_fields c = Raise (KeyError key) /\ In key price_keys
  | None => (exists v, price_fields c = Ok v) /\ ~ missing_price_field c
  end.
Proof.
  unfold first_missing_key, price_fields, missing_price_field, price_keys.
  destruct (c_open c); cbn; [|auto].
  destruct (c_close c); cbn; [|auto].
  destruct (c_min c); cbn; [|auto].
  destruct (c_max c); cbn; [|auto 6].
  split; [eauto|]. intros [H|[H|[H|H]]]; discriminate.
Qed.

Lemma missing_field_raises cs :
  Exists missing_price_field cs ->
  exists key,
    first_missing cs = Some key /\ In key price_keys
    /\ build_frame pd cs = Raise (KeyError key).
Proof.
  intros Hex. unfold build_frame.
  assert (exists key, first_missing cs = Some key /\ In key price_keys
            /\ map_result price_fields cs = Raise (KeyError key))
    as (key & Hf & Hk & Hm).
  { induction Hex as [c cs Hc|c cs _ IH]; cbn [map_result first_missing];
      pose proof (price_fields_first c) as Hc1;
      destruct (first_missing_key c) as [key|].
    - destruct Hc1 as (-> & Hk). exists key. auto.
    - destruct Hc1 as (_ & Hn). contradiction.
    - destruct Hc1 as (-> & Hk). exists key. auto.
    - destruct Hc1 as ((v & ->) & _).
      destruct IH as (key & Hf & Hk & ->). exists key. auto. }
  exists key. rewrite Hm. auto.
Qed.

(** The report for missing columns is never written. *)
Lemma missing_columns_never_logged fetched :
  ~ In ErrMissingColumns (fst (_analyze_market pd fetched)).
Proof.
  unfold _analyze_market, analysis, analyze_body.
  destruct (get_price_data_cases fetched)
    as [(e & Hg)|(cs & f & _ & Hf & Hg)]; rewrite Hg; cbn [bind].
  - cbn. intros [H|[H|[]]]; discriminate.
  - destruct (frame_empty f || Nat.ltb (List.length (rows f)) 2) eqn:Hs.
    + cbn. intros [H|[]]; discriminate.
    + apply orb_false_iff in Hs. destruct Hs as (He & _).
      destruct (build_frame_rows cs f Hf) as (_ & Hcols).
      assert (Hne : rows f <> []).
      { unfold frame_empty in He. destruct (columns f), (rows f);
          congruence. }
      unfold has_columns. rewrite (Hcols Hne).
      change (negb (forallb _ _)) with false. cbv iota.
      destruct (_ || _).
      * cbn. intros [H|[]]; discriminate.
      * unfold decide.
        destruct (iloc_neg _ 1); [|cbn; intros [H|[]]; discriminate].
        destruct (iloc_neg _ 2); [|cbn; intros [H|[]]; discriminate].
        cbn. tauto.
Qed.

(** [_analyze_market] never raises. *)
Lemma analyze_market_total fetched :
  exists d, snd (_analyze_market pd fetched) = Ok d.
Proof.
  unfold _analyze_market.
  destruct (analysis pd fetched) as [l [r|e]] eqn:Ha.
  - cbn. eauto.
  - unfold analysis in Ha.
    destruct (analyze_body pd fetched) as [l' [r'|e']]; discriminate.
Qed.

(** The code's cross-over compares the second-last row with itself. *)
Lemma setups_never_cross fetched st d :
  snd (analysis pd fetched) = Ok (Some (st, d)) ->
  crossOver st = false /\ crossUnder st = false
  /\ Signal_buy st = false /\ Signal_sell st = false.
Proof.
  assert (Hself : forall a, flt (ema_cross a) (ema_trend a)
                            && fgt (ema_cross a) (ema_trend a) = false).
  { intros a. unfold fgt.
    destruct (flt (ema_cross a) (ema_trend a)) eqn:E; [|reflexivity].
    cbn. apply flt_antisym, E. }
  assert (Hst : forall a,
             crossOver (market_setups a a) = false
             /\ crossUnder (market_setups a a) = false
             /\ Signal_buy (market_setups a a) = false
             /\ Signal_sell (market_setups a a) = false).
  { intros a. cbn [market_setups crossOver crossUnder Signal_buy Signal_sell].
    rewrite (andb_comm (fgt (ema_cross a) (ema_trend a))).
    unfold fgt at 4 6. fold (fgt (ema_cross a) (ema_trend a)).
    rewrite Hself, !andb_false_r. auto. }
  unfold analysis, analyze_body.
  destruct (_get_price_data pd fetched) as [l [f|e]]; cbn [bind];
    [|discriminate].
  destruct (_ || _); [cbn; discriminate|].
  destruct (negb _); [cbn; discriminate|].
  destruct (_ || _); [cbn; discriminate|].
  unfold decide.
  destruct (iloc_neg _ 1) as [r1|]; [|cbn; discriminate].
  destruct (iloc_neg _ 2) as [r2|]; [|cbn; discriminate].
  cbn. intros H; inversion H; subst. apply Hst.
Qed.

End Analysis.

(** C4.  When two rows or more survive trimming, the latest one has a
    close and an open that compare (one of above, below, equal), nothing is
    logged, and the decision is [call] for close above open, [put] for
    close below open, and no signal for close equal to open, whatever the
    indicator kernels and the setup are; so for 1.2050 against 1.2000, for
    1.1990 against 1.2000 and for 1.2000 against 1.2000. *)
Theorem decision_by_latest_row (pd : pandas) (fetched : result (list candle)) :
  (2 <= List.length (trimmed_rows pd fetched))%nat ->
  exists latest,
    iloc_neg (trimmed_rows pd fetched) 1 = Ok latest
    /\ (fgt (r_close latest) (r_open latest) = true
        \/ flt (r_close latest) (r_open latest) = true
        \/ feq (r_close latest) (r_open latest) = true)
    /\ (fgt (r_close latest) (r_open latest) = true ->
        _analyze_market pd fetched = ([], Ok (Some call)))
    /\ (flt (r_close latest) (r_open latest) = true ->
        _analyze_market pd fetched = ([], Ok (Some put)))
    /\ (feq (r_close latest) (r_open latest) = true ->
        _analyze_market pd fetched = ([], Ok None))
    /\ (r_close latest = dec 12050 4 -> r_open latest = dec 12000 4 ->
        _analyze_market pd fetched = ([], Ok (Some call)))
    /\ (r_close latest = dec 11990 4 -> r_open latest = dec 12000 4 ->
        _analyze_market pd fetched = ([], Ok (Some put)))
    /\ (r_close latest = dec 12000 4 -> r_open latest = dec 12000 4 ->
        _analyze_market pd fetched = ([], Ok None)).
Proof.
  intros Hlen.
  destruct (analysis_of_trimmed pd fetched Hlen)
    as (latest & second & H1 & _ & Hin & Ha).
  exists latest. split; [exact H1|].
  assert (is_nan (r_open latest) = false
          /\ is_nan (r_close latest) = false) as (Ho & Hc).
  { unfold trimmed_rows in Hin.
    destruct (snd (_get_price_data pd fetched)) as [f|e]; [|destruct Hin].
    exact (dropna_no_nan _ _ Hin). }
  assert (Hres : _analyze_market pd fetched
                 = ([], Ok (close_vs_open latest))).
  { unfold _analyze_market. rewrite Ha. reflexivity. }
  rewrite Hres. unfold close_vs_open, fgt.
  assert (Hcall : flt (r_open latest) (r_close latest) = true ->
                  ([] : list log_event,
                   Ok (if flt (r_open latest) (r_close latest)
                       then Some call
                       else if flt (r_close latest) (r_open latest)
                            then Some put else None))
                  = ([], Ok (Some call)))
    by (intros ->; reflexivity).
  assert (Hput : flt (r_close latest) (r_open latest) = true ->
                 ([] : list log_event,
                  Ok (if flt (r_open latest) (r_close latest)
                      then Some call
                      else if flt (r_close latest) (r_open latest)
                           then Some put else None))
                 = ([], Ok (Some put))).
  { intros H. rewrite (flt_antisym _ _ H), H. reflexivity. }
  assert (Hnone : feq (r_close latest) (r_open latest) = true ->
                  ([] : list log_event,
                   Ok (if flt (r_open latest) (r_close latest)
                       then Some call
                       else if flt (r_close latest) (r_open latest)
                            then Some put else None))
                  = ([], Ok None)).
  { intros H. destruct (feq_not_lt _ _ H) as (-> & ->). reflexivity. }
  repeat split; trivial.
  - destruct (flt (r_open latest) (r_close latest)) eqn:E1; auto.
    destruct (flt (r_close latest) (r_open latest)) eqn:E2; auto.
    right; right. apply feq_of_not_lt; assumption.
  - intros Ec Eo. apply Hcall. rewrite Ec, Eo. reflexivity.
  - intros Ec Eo. apply Hput. rewrite Ec, Eo. reflexivity.
  - intros Ec Eo. apply Hnone. rewrite Ec, Eo. reflexivity.
Qed.

Lemma decision_by_latest_row_witness :
  (2 <= List.length (trimmed_rows Kernels.reference (Ok crossing_series)))%nat
  /\ _analyze_market Kernels.reference (Ok crossing_series)
     = ([], Ok (Some call)).
Proof.
  assert (Hlen : (2 <= List.length
                   (trimmed_rows Kernels.reference (Ok crossing_series)))%nat)
    by (vm_compute; lia).
  split; [exact Hlen|].
  destruct (decision_by_latest_row Kernels.reference (Ok crossing_series) Hlen)
    as (latest & H1 & _ & Hcall & _).
  apply Hcall. vm_compute in H1. inversion H1; subst. reflexivity.
Defined.

(** C6 fails on the code: on the series of twenty flat candles, a dip, a
    jump and one more candle, four rows survive, the fast average is below
    the middle one on the third-last row and above it on the second-last,
    yet the analysis computes [crossOver] false: its third-last row is the
    second-last one.  Likewise [crossUnder] on the series with a rise and a
    drop. *)
Theorem crossover_on_crossing_series :
  (List.length (trimmed_rows Kernels.reference (Ok crossing_series)) = 4%nat
   /\ Spec.crossOver (trimmed_rows Kernels.reference (Ok crossing_series))
      = Ok true
   /\ match snd (analysis Kernels.reference (Ok crossing_series)) with
      | Ok (Some (st, _)) => crossOver st = false
      | _ => False
      end)
  /\ (List.length (trimmed_rows Kernels.reference (Ok falling_series)) = 4%nat
      /\ Spec.crossUnder (trimmed_rows Kernels.reference (Ok falling_series))
         = Ok true
      /\ match snd (analysis Kernels.reference (Ok falling_series)) with
         | Ok (Some (st, _)) => crossUnder st = false
         | _ => False
         end).
Proof. vm_compute. repeat split. Qed.

(** C8, as amended.  A candle with an absent price key makes the fetch
    fail with a [KeyError] on the first key lacking (of the first candle
    that lacks one, in the order open, close, min, max), whatever the
    kernels and before any of them is called; the failure is logged with
    that error, the frame is taken as empty, and the analysis ends with the
    generic report for empty or short data and no signal; the report for
    missing columns is not written. *)
Theorem missing_field_reported_as_empty (pd : pandas) (cs : list candle) :
  Exists missing_price_field cs ->
  exists key,
    first_missing cs = Some key
    /\ In key price_keys
    /\ build_frame pd cs = Raise (KeyError key)
    /\ _analyze_market pd (Ok cs)
       = ([ErrFetchFailed (KeyError key); ErrEmptyOrShort], Ok None)
    /\ ~ In ErrMissingColumns (fst (_analyze_market pd (Ok cs))).
Proof.
  intros Hex. destruct (missing_field_raises pd cs Hex) as (key & Hf & Hk & Hb).
  exists key. repeat (split; [assumption|]).
  assert (Ha : _analyze_market pd (Ok cs)
               = ([ErrFetchFailed (KeyError key); ErrEmptyOrShort], Ok None)).
  { apply (analyze_short_frame pd (Ok cs) [ErrFetchFailed (KeyError key)]
             empty_frame); [|reflexivity].
    unfold _get_price_data. rewrite Hb. reflexivity. }
  split; [exact Ha|]. rewrite Ha. cbn.
  intros [H|[H|[]]]; discriminate.
Qed.

Lemma missing_field_reported_as_empty_witness :
  Exists missing_price_field broken_min_series
  /\ first_missing broken_min_series = Some "min"%string
  /\ _analyze_market Kernels.reference (Ok broken_min_series)
     = ([ErrFetchFailed (KeyError "min"); ErrEmptyOrShort], Ok None).
Proof.
  assert (H : Exists missing_price_field broken_min_series).
  { apply Exists_exists. eexists. split.
    - unfold broken_min_series. apply in_or_app. right.
      left. reflexivity.
    - right. right. left. reflexivity. }
  split; [exact H|]. split; [reflexivity|].
  destruct (missing_field_reported_as_empty Kernels.reference
              broken_min_series H) as (key & Hf & _ & _ & Ha & _).
  assert (Hkey : key = "min"%string).
  { assert (E : Some key = Some "min"%string)
      by (rewrite <- Hf; reflexivity).
    inversion E. reflexivity. }
  rewrite <- Hkey. exact Ha.
Defined.

(** C8 as stated fails: with the ['open'] of the last candle absent, the
    analysis ends with the same generic report as on no candles at all, and
    the report for missing columns is not written. *)
Lemma missing_field_counterexample :
  _analyze_market Kernels.reference (Ok broken_series)
  = ([ErrFetchFailed (KeyError "open"); ErrEmptyOrShort], Ok None)
  /\ _analyze_market Kernels.reference (Ok [])
     = ([ErrEmptyOrShort], Ok None)
  /\ ~ In ErrMissingColumns
         (fst (_analyze_market Kernels.reference (Ok broken_series))).
Proof.
  split; [reflexivity|]. split; [reflexivity|].
  apply missing_columns_never_logged.
Qed.

(** C9.  A cycle whose analysis gives no signal, as it does on a failed
    fetch and on fewer than two candles, calls [buy] not once and leaves
    the trader as it was, field for field. *)
Theorem no_signal_cycle (pd : pandas) (cfg : config) (s : trader)
    (b : broker) :
  snd (_analyze_market pd (get_candles b)) = Ok None
  \/ (exists cs, get_candles b = Ok cs /\ (List.length cs < 2)%nat)
  \/ (exists e, get_candles b = Raise e) ->
  trader_after (create_order pd cfg s b) = s
  /\ buy_calls (create_order pd cfg s b) = [].
Proof.
  intros H.
  assert (Hnone : snd (_analyze_market pd (get_candles b)) = Ok None).
  { destruct H as [H|[(cs & -> & Hlen)|(e & ->)]]; [exact H| |reflexivity].
    destruct (analyze_few_candles pd cs Hlen) as (l & ->). reflexivity. }
  unfold create_order.
  destruct (_analyze_market pd (get_candles b)) as [l r].
  cbn [snd] in Hnone. subst r. split; reflexivity.
Qed.

Lemma no_signal_cycle_witness :
  (snd (_analyze_market Kernels.reference
          (get_candles (broker_of (flat 1) (of_Z (-10))))) = Ok None
   \/ (exists cs, get_candles (broker_of (flat 1) (of_Z (-10))) = Ok cs
                  /\ (List.length cs < 2)%nat)
   \/ (exists e, get_candles (broker_of (flat 1) (of_Z (-10))) = Raise e))
  /\ trader_after (create_order Kernels.reference cfg10 at_cap
                     (broker_of (flat 1) (of_Z (-10)))) = at_cap
  /\ buy_calls (create_order Kernels.reference cfg10 at_cap
                  (broker_of (flat 1) (of_Z (-10)))) = [].
Proof.
  assert (H : snd (_analyze_market Kernels.reference
                     (get_candles (broker_of (flat 1) (of_Z (-10))))) = Ok None
              \/ (exists cs, get_candles (broker_of (flat 1) (of_Z (-10))) = Ok cs
                             /\ (List.length cs < 2)%nat)
              \/ (exists e, get_candles (broker_of (flat 1) (of_Z (-10)))
                            = Raise e)).
  { right. left. exists (flat 1). split; [reflexivity|]. vm_compute. lia. }
  split; [exact H|].
  exact (no_signal_cycle Kernels.reference cfg10 at_cap
           (broker_of (flat 1) (of_Z (-10))) H).
Defined.

(** * Further properties of the code *)

(** ** Floats: signs and NaN *)

Section FloatSigns.

Lemma shr_1_nonneg mrs : 0 <= shr_m mrs -> 0 <= shr_m (shr_1 mrs).
Proof.
  destruct mrs as [m r s]. destruct m as [|[p|p|]|[p|p|]]; cbn; lia.
Qed.

Lemma iter_shr_1_nonneg p :
  forall mrs, 0 <= shr_m mrs -> 0 <= shr_m (iter_pos shr_1 p mrs).
Proof.
  induction p as [p IH|p IH|]; cbn; intros mrs H.
  - apply IH, IH, shr_1_nonneg, H.
  - apply IH, IH, H.
  - apply shr_1_nonneg, H.
Qed.

Lemma shr_fexp_nonneg m e l :
  0 <= m -> 0 <= shr_m (fst (shr_fexp prec emax m e l)).
Proof.
  intros Hm. unfold shr_fexp, shr.
  assert (H0 : 0 <= shr_m (shr_record_of_loc m l))
    by (destruct l as [|[]]; exact Hm).
  destruct (fexp prec emax (Zdigits2 m + e) - e); cbn [fst]; trivial.
  apply iter_shr_1_nonneg, H0.
Qed.

Lemma round_nearest_even_nonneg m l :
  0 <= m -> 0 <= round_nearest_even m l.
Proof.
  intros Hm. destruct l as [|[]]; cbn; try destruct (Z.even m); lia.
Qed.

(** Rounding a magnitude gives a number of the sign asked for, never NaN. *)
Lemma binary_round_aux_has_sign sx mx ex lx :
  0 <= mx -> has_sign sx (binary_round_aux prec emax sx mx ex lx).
Proof.
  intros Hm. unfold binary_round_aux.
  pose proof (shr_fexp_nonneg mx ex lx Hm) as H1.
  destruct (shr_fexp prec emax mx ex lx) as [mrs' e']. cbn [fst] in H1.
  pose proof (shr_fexp_nonneg _ e' loc_Exact
                (round_nearest_even_nonneg _ (loc_of_shr_record mrs') H1))
    as H2.
  destruct (shr_fexp prec emax _ e' loc_Exact) as [mrs'' e''].
  cbn [fst] in H2.
  destruct (shr_m mrs''); [exact I| |lia].
  destruct (Z.leb e'' (emax - prec)); reflexivity.
Qed.

Lemma binary_round_has_sign sx m e :
  has_sign sx (binary_round prec emax sx m e).
Proof.
  unfold binary_round. destruct (shl_align _ _ _) as [mz ez].
  apply binary_round_aux_has_sign. lia.
Qed.

Lemma fadd_has_sign b x y :
  has_sign b x -> has_sign b y -> has_sign b (fadd x y).
Proof.
  destruct x as [sx|sx| |sx mx ex], y as [sy|sy| |sy my ey]; cbn;
    try tauto; try (intros -> ->; destruct b; reflexivity);
    try (intros _ _; destruct sx, sy; exact I).
  intros -> ->. unfold fadd, SFadd.
  destruct b; cbn [cond_Zopp Z.opp Z.add binary_normalize];
    apply binary_round_has_sign.
Qed.

Lemma fmul_has_sign m e m' e' :
  has_sign false (fmul (S754_finite false m e) (S754_finite false m' e')).
Proof. apply binary_round_aux_has_sign. lia. Qed.

Lemma loss_has_sign w : flt w fzero = true -> has_sign true w.
Proof.
  destruct w as [s|s| |s m e]; try destruct s; cbn; try discriminate; auto.
Qed.

Lemma has_sign_not_nan b x : has_sign b x -> is_nan x = false.
Proof. destruct x; cbn; tauto. Qed.

Lemma not_positive_le_zero x : has_sign true x -> SFleb x fzero = true.
Proof.
  destruct x as [s|s| |s m e]; cbn; try tauto; intros ->; reflexivity.
Qed.

Lemma SFleb_refl x : is_nan x = false -> SFleb x x = true.
Proof.
  unfold SFleb.
  destruct x as [s|s| |s m e]; cbn; try discriminate; intros _;
    try (destruct s; reflexivity).
  rewrite Z.compare_refl, Pos.compare_cont_refl.
  destruct s; reflexivity.
Qed.

Lemma SFleb_of_not_lt a b :
  is_nan a = false -> is_nan b = false ->
  flt a b = false -> SFleb b a = true.
Proof.
  intros Ha Hb. pose proof (SFcompare_not_nan a b Ha Hb) as Hc.
  unfold flt, SFltb, SFleb. rewrite (SFcompare_antisym a b).
  destruct (SFcompare a b) as [[]|]; cbn; congruence.
Qed.

(** The float of the loss rule, [abs(win) + abs(win) * .15], is a
    number that is not negative, whenever [win] is not NaN. *)
Lemma increment_has_sign w :
  is_nan w = false ->
  has_sign false (fadd (fabs w) (fmul (fabs w) f015)).
Proof.
  destruct w as [s|s| |s m e]; try discriminate; intros _;
    apply fadd_has_sign; try reflexivity.
  apply (fmul_has_sign m e).
Qed.

End FloatSigns.

(** X1.  A settlement ends in an exception only for a loss whose rounded
    increment overflows: the exception is [OverflowError], never the
    [ValueError] of rounding NaN, and a win never raises. *)
Theorem transition_raises_only_overflow (cfg : config) (s : trader)
    (win : float) (e : exn) :
  snd (_handle_order_result cfg s win) = Raise e ->
  e = OverflowError
  /\ flt win fzero = true
  /\ fadd (fabs win) (fmul (fabs win) f015) = S754_infinity false.
Proof.
  destruct (flt win fzero) eqn:Hw.
  - rewrite (handle_loss cfg s win Hw).
    pose proof (increment_has_sign win
                  (has_sign_not_nan _ _ (loss_has_sign win Hw))) as Hs.
    unfold loss_increment.
    destruct (fadd (fabs win) (fmul (fabs win) f015)) as [sx|sx| |sx m ex];
      cbn in Hs |- *; try contradiction.
    + destruct (max_martingel cfg <? mm s + 1); discriminate.
    + subst sx. intros H; inversion H. auto.
    + destruct (max_martingel cfg <? mm s + 1); discriminate.
  - rewrite (handle_win cfg s win Hw). discriminate.
Qed.

Lemma transition_raises_only_overflow_witness :
  snd (_handle_order_result cfg10 (__init__ cfg10) (SFopp huge_float))
  = Raise OverflowError
  /\ OverflowError = OverflowError
  /\ flt (SFopp huge_float) fzero = true
  /\ fadd (fabs (SFopp huge_float)) (fmul (fabs (SFopp huge_float)) f015)
     = S754_infinity false.
Proof.
  split; [reflexivity|].
  exact (transition_raises_only_overflow cfg10 (__init__ cfg10)
           (SFopp huge_float) OverflowError eq_refl).
Defined.

(** ** The stake controller over many settlements *)

Section Controller.

Variable cfg : config.

(** What one settlement keeps, besides the facts on stake and depth. *)
Lemma step_keeps_counts s win s' :
  snd (_handle_order_result cfg s win) = Ok s' ->
  mm s <= Z.max 0 (max_martingel cfg) /\ 0 <= mm s <= gameLose s
  /\ 0 <= gameWin s ->
  mm s' <= Z.max 0 (max_martingel cfg) /\ 0 <= mm s' <= gameLose s'
  /\ 0 <= gameWin s'
  /\ gameWin s' + gameLose s' = gameWin s + gameLose s + 1.
Proof.
  intros Hstep (Hcap & Hmm & Hw).
  destruct (handle_cases _ _ _ _ Hstep)
    as [[_ ->]|[(r & _ & _ & Hle & ->)|(r & _ & _ & Hlt & ->)]]; cbn; lia.
Qed.

Lemma step_keeps_totals s win s' :
  snd (_handle_order_result cfg s win) = Ok s' ->
  has_sign true (TempLose s) /\ has_sign true (MaxLose s)
  /\ SFleb (MaxLose s) (TempLose s) = true ->
  has_sign true (TempLose s') /\ has_sign true (MaxLose s')
  /\ SFleb (MaxLose s') (TempLose s') = true
  /\ SFleb (MaxLose s') (MaxLose s) = true.
Proof.
  intros Hstep (Ht & Hm & Hle).
  assert (Hloss : forall r,
             flt win fzero = true ->
             has_sign true (TempLose (loss_update s r win))
             /\ has_sign true (MaxLose (loss_update s r win))
             /\ SFleb (MaxLose (loss_update s r win))
                      (TempLose (loss_update s r win)) = true
             /\ SFleb (MaxLose (loss_update s r win)) (MaxLose s) = true).
  { intros r Hw. cbn [loss_update TempLose MaxLose].
    pose proof (fadd_has_sign true _ _ Ht (loss_has_sign win Hw)) as Hsum.
    pose proof (has_sign_not_nan _ _ Hsum) as Hn.
    pose proof (has_sign_not_nan _ _ Hm) as Hn'.
    destruct (flt (fadd (TempLose s) win) (MaxLose s)) eqn:E.
    - repeat split; trivial; [apply SFleb_refl, Hn|].
      unfold SFleb. unfold flt, SFltb in E.
      destruct (SFcompare _ _) as [[]|]; congruence.
    - repeat split; trivial; [|apply SFleb_refl, Hn'].
      apply SFleb_of_not_lt; assumption. }
  destruct (handle_cases _ _ _ _ Hstep)
    as [[_ ->]|[(r & Hw & _ & _ & ->)|(r & Hw & _ & _ & ->)]].
  - cbn. repeat split; trivial.
    + apply not_positive_le_zero, Hm.
    + apply SFleb_refl, (has_sign_not_nan _ _ Hm).
  - apply Hloss, Hw.
  - apply (Hloss r Hw).
Qed.

End Controller.

(** X2.  In every reachable state the depth is at most the cap (at most 0
    for a negative cap) and at most the number of losses counted. *)
Theorem depth_within_cap (cfg : config) (s : trader) :
  reachable cfg s ->
  mm s <= Z.max 0 (max_martingel cfg) /\ 0 <= mm s <= gameLose s
  /\ 0 <= gameWin s.
Proof.
  induction 1 as [|s win s' _ IH _ Hstep].
  - cbn. lia.
  - pose proof (step_keeps_counts cfg s win s' Hstep IH). tauto.
Qed.

Lemma depth_within_cap_witness :
  reachable cfg10 after_small_loss
  /\ mm after_small_loss <= Z.max 0 (max_martingel cfg10)
  /\ 0 <= mm after_small_loss <= gameLose after_small_loss
  /\ 0 <= gameWin after_small_loss.
Proof.
  split; [exact reachable_after_small_loss|].
  exact (depth_within_cap cfg10 after_small_loss reachable_after_small_loss).
Defined.

(** X3.  In every reachable state the running streak total and the worst
    one are numbers, not NaN, the worst at most the running one and the
    running one at most 0. *)
Theorem loss_totals_ordered (cfg : config) (s : trader) :
  reachable cfg s ->
  is_nan (TempLose s) = false /\ is_nan (MaxLose s) = false
  /\ SFleb (MaxLose s) (TempLose s) = true
  /\ SFleb (TempLose s) fzero = true.
Proof.
  intros Hs.
  assert (H : has_sign true (TempLose s) /\ has_sign true (MaxLose s)
              /\ SFleb (MaxLose s) (TempLose s) = true).
  { induction Hs as [|s win s' _ IH _ Hstep].
    - cbn. auto.
    - pose proof (step_keeps_totals cfg s win s' Hstep IH). tauto. }
  destruct H as (Ht & Hm & Hle).
  repeat split; trivial; eauto using has_sign_not_nan, not_positive_le_zero.
Qed.

Lemma loss_totals_ordered_witness :
  reachable cfg10 after_small_loss
  /\ is_nan (TempLose after_small_loss) = false
  /\ is_nan (MaxLose after_small_loss) = false
  /\ SFleb (MaxLose after_small_loss) (TempLose after_small_loss) = true
  /\ SFleb (TempLose after_small_loss) fzero = true.
Proof.
  split; [exact reachable_after_small_loss|].
  exact (loss_totals_ordered cfg10 after_small_loss
           reachable_after_small_loss).
Defined.

(** X4.  The worst streak total only goes down: after a settlement from a
    reachable state it is at most what it was. *)
Theorem worst_total_only_falls (cfg : config) (s s' : trader) (win : float) :
  reachable cfg s ->
  snd (_handle_order_result cfg s win) = Ok s' ->
  SFleb (MaxLose s') (MaxLose s) = true.
Proof.
  intros Hs Hstep.
  assert (H : has_sign true (TempLose s) /\ has_sign true (MaxLose s)
              /\ SFleb (MaxLose s) (TempLose s) = true).
  { clear Hstep. induction Hs as [|s win0 s0 _ IH _ Hstep].
    - cbn. auto.
    - pose proof (step_keeps_totals cfg s win0 s0 Hstep IH). tauto. }
  pose proof (step_keeps_totals cfg s win s' Hstep H). tauto.
Qed.

Lemma worst_total_only_falls_witness :
  reachable cfg10 (__init__ cfg10)
  /\ snd (_handle_order_result cfg10 (__init__ cfg10) (dec (-25) 2))
     = Ok after_small_loss
  /\ SFleb (MaxLose after_small_loss) (MaxLose (__init__ cfg10)) = true.
Proof.
  split; [apply reach_init|]. split; [reflexivity|].
  exact (worst_total_only_falls cfg10 (__init__ cfg10) after_small_loss
           (dec (-25) 2) (reach_init _ cfg10) eq_refl).
Defined.

(** X5.  A streak of losses that stays within the cap climbs the ladder:
    each order is placed with the stake before it, the stake ends at the
    first stake plus the sum of the rounded increments, and depth and loss
    count go up by the length of the streak. *)
Theorem loss_streak_ladder (cfg : config) (ws : list float) :
  forall (rs : list Z) (s : trader),
  Forall2 (fun w r => flt w fzero = true /\ loss_increment w = Ok r) ws rs ->
  mm s + Z.of_nat (List.length ws) <= max_martingel cfg ->
  exists s',
    settle_all cfg s ws = Ok (ladder (amount s) rs, s')
    /\ amount s' = amount s + Zsum rs
    /\ mm s' = mm s + Z.of_nat (List.length ws)
    /\ gameLose s' = gameLose s + Z.of_nat (List.length ws)
    /\ gameWin s' = gameWin s.
Proof.
  induction ws as [|w ws IH]; intros rs s Hall Hcap.
  - inversion Hall; subst. exists s. cbn. repeat split; lia.
  - inversion Hall as [|w0 r ws0 rs' (Hw & Hr) Hrest]; subst.
    cbn [List.length] in Hcap.
    destruct (IH rs' (loss_update s r w) Hrest) as (s' & Hs & Ha & Hm & Hl & Hg).
    { cbn [loss_update mm]. lia. }
    exists s'. cbn [settle_all].
    rewrite (handle_loss cfg s w Hw), Hr. cbv zeta.
    destruct (Z.ltb_spec (max_martingel cfg) (mm s + 1)) as [Hlt|_]; [lia|].
    cbn [snd]. rewrite Hs. cbn [loss_update amount mm gameLose gameWin] in *.
    cbn [ladder Zsum fold_right List.length]. fold (Zsum rs').
    repeat split; lia.
Qed.

Lemma loss_streak_ladder_witness :
  Forall2 (fun w r => flt w fzero = true /\ loss_increment w = Ok r)
    three_losses [12; 13; 15]
  /\ mm (__init__ cfg10) + Z.of_nat (List.length three_losses)
     <= max_martingel cfg10
  /\ exists s',
       settle_all cfg10 (__init__ cfg10) three_losses
       = Ok (ladder (amount (__init__ cfg10)) [12; 13; 15], s')
       /\ amount s' = amount (__init__ cfg10) + Zsum [12; 13; 15]
       /\ mm s' = mm (__init__ cfg10) + Z.of_nat (List.length three_losses)
       /\ gameLose s'
          = gameLose (__init__ cfg10) + Z.of_nat (List.length three_losses)
       /\ gameWin s' = gameWin (__init__ cfg10).
Proof.
  assert (H : Forall2
                (fun w r => flt w fzero = true /\ loss_increment w = Ok r)
                three_losses [12; 13; 15]).
  { repeat constructor. }
  assert (Hc : mm (__init__ cfg10) + Z.of_nat (List.length three_losses)
               <= max_martingel cfg10) by (vm_compute; discriminate).
  split; [exact H|]. split; [exact Hc|].
  exact (loss_streak_ladder cfg10 three_losses [12; 13; 15]
           (__init__ cfg10) H Hc).
Defined.

(** X6.  Settling a list of orders that all settle counts each one: one
    stake recorded per order, the first the stake at the start, and wins
    plus losses grow by the number of orders. *)
Theorem settled_orders_counted (cfg : config) (wins : list float) :
  forall (s s' : trader) (stakes : list Z),
  settle_all cfg s wins = Ok (stakes, s') ->
  List.length stakes = List.length wins
  /\ gameWin s' + gameLose s'
     = gameWin s + gameLose s + Z.of_nat (List.length wins)
  /\ (wins <> [] -> hd_error stakes = Some (amount s)).
Proof.
  induction wins as [|w ws IH]; intros s s' stakes; cbn [settle_all].
  - intros H; inversion H; subst. cbn. repeat split; try lia. congruence.
  - destruct (snd (_handle_order_result cfg s w)) as [s1|e] eqn:Hstep;
      [|discriminate].
    destruct (settle_all cfg s1 ws) as [[stakes1 s2]|e] eqn:Hrest;
      [|discriminate].
    intros H; inversion H; subst; clear H.
    destruct (IH s1 s' stakes1 Hrest) as (Hlen & Hcount & _).
    assert (Hone : gameWin s1 + gameLose s1 = gameWin s + gameLose s + 1).
    { destruct (handle_cases _ _ _ _ Hstep)
        as [[_ ->]|[(r & _ & _ & _ & ->)|(r & _ & _ & _ & ->)]]; cbn; lia. }
    cbn [List.length hd_error]. repeat split; try lia.
Qed.

Lemma settled_orders_counted_witness :
  settle_all cfg10 (__init__ cfg10) three_losses = Ok ([10; 22; 35], at_cap)
  /\ List.length [10; 22; 35] = List.length three_losses
  /\ gameWin at_cap + gameLose at_cap
     = gameWin (__init__ cfg10) + gameLose (__init__ cfg10)
       + Z.of_nat (List.length three_losses)
  /\ (three_losses <> [] ->
      hd_error [10; 22; 35] = Some (amount (__init__ cfg10))).
Proof.
  split; [reflexivity|].
  exact (settled_orders_counted cfg10 three_losses (__init__ cfg10) at_cap
           [10; 22; 35] eq_refl).
Defined.

(** ** One cycle, and the loop *)

Section Cycles.

Variable pd : pandas.

Lemma step_keeps_control cfg s win s' :
  snd (_handle_order_result cfg s win) = Ok s' ->
  controlled cfg s -> controlled cfg s'.
Proof.
  unfold controlled. intros Hstep ((Hmm & Hcap) & Hge & Hbase).
  destruct (handle_cases _ _ _ _ Hstep)
    as [[_ ->]|[(r & _ & Hr & Hle & ->)|(r & _ & Hr & Hlt & ->)]]; cbn;
    try lia.
  pose proof (loss_increment_nonneg _ _ Hr). lia.
Qed.

(** The analysis logs errors only: no line of a settlement. *)
Lemma analysis_logs_no_settlement fetched :
  Forall (fun ev => is_info_win ev = false /\ is_info_loss ev = false)
    (fst (_analyze_market pd fetched)).
Proof.
  unfold _analyze_market, analysis, analyze_body.
  destruct (get_price_data_cases pd fetched)
    as [(e & Hg)|(cs & f & _ & Hf & Hg)]; rewrite Hg; cbn [bind].
  - cbn. repeat constructor.
  - destruct (_ || _); [cbn; repeat constructor|].
    destruct (negb _); [cbn; repeat constructor|].
    destruct (_ || _); [cbn; repeat constructor|].
    unfold decide.
    destruct (iloc_neg _ 1); [|cbn; repeat constructor].
    destruct (iloc_neg _ 2); cbn; repeat constructor.
Qed.

Lemma few_rows_no_signal fetched :
  (List.length (trimmed_rows pd fetched) < 2)%nat ->
  snd (_analyze_market pd fetched) = Ok None.
Proof.
  intros Hlen. unfold _analyze_market, analysis, analyze_body.
  unfold trimmed_rows in Hlen.
  destruct (_get_price_data pd fetched) as [l [f|e]]; cbn [bind snd] in *;
    [|reflexivity].
  destruct (_ || _); [reflexivity|].
  destruct (negb _); [reflexivity|].
  destruct (dropna (with_indicators pd (rows f))) as [|r0 [|r1 rs]];
    cbn in Hlen |- *; try reflexivity. lia.
Qed.

End Cycles.

(** X7.  A cycle ends in one of three ways: no order and the trader as it
    was; one order placed with the stake held before the cycle and the
    side of the signal, the trader changed in its side only; or that order
    accepted and settled, the trader being what the settlement of its
    profit/loss gives. *)
Theorem cycle_outcomes (pd : pandas) (cfg : config) (s : trader)
    (b : broker) :
  (trader_after (create_order pd cfg s b) = s
   /\ buy_calls (create_order pd cfg s b) = [])
  \/ exists d,
       snd (_analyze_market pd (get_candles b)) = Ok (Some d)
       /\ buy_calls (create_order pd cfg s b) = [(amount s, d)]
       /\ (trader_after (create_order pd cfg s b) = set_direction s d
           \/ exists id win,
                buy b (amount s) d = Ok (true, id)
                /\ check_win_v3 b id = Ok win
                /\ snd (_handle_order_result cfg (set_direction s d) win)
                   = Ok (trader_after (create_order pd cfg s b))).
Proof.
  unfold create_order.
  destruct (_analyze_market pd (get_candles b)) as [l1 [[d|]|e]];
    cbn [snd]; [|left; auto|left; auto].
  destruct (get_balance b) as [bal|e]; [|left; auto].
  right. exists d. split; [reflexivity|].
  cbn [set_direction amount direction].
  destruct (buy b (amount s) d) as [[[|] id]|e] eqn:Hb; cbn [negb];
    [|split; auto|split; auto].
  destruct (check_win_v3 b id) as [win|e] eqn:Hc; [|split; auto].
  destruct (_handle_order_result cfg (set_direction s d) win)
    as [l4 [s2|e]] eqn:Hh; cbn [trader_after buy_calls];
    split; auto.
  right. exists id, win. rewrite Hh. auto.
Qed.

(** X8.  When the broker accepts no order (it refuses, or the call
    raises), the cycle leaves stake, depth, counters and streak totals as
    they were, and never asks for a result. *)
Theorem refused_order_keeps_stake (pd : pandas) (cfg : config) (s : trader)
    (b : broker) :
  (forall d id, buy b (amount s) d <> Ok (true, id)) ->
  stake_fields (trader_after (create_order pd cfg s b)) = stake_fields s
  /\ forall check,
       create_order pd cfg s
         {| get_candles := get_candles b; get_balance := get_balance b;
            buy := buy b; check_win_v3 := check |}
       = create_order pd cfg s b.
Proof.
  intros Hbuy. split.
  - destruct (cycle_outcomes pd cfg s b)
      as [[-> _]|(d & _ & _ & [->|(id & win & Hb & _)])]; try reflexivity.
    destruct (Hbuy d id Hb).
  - intros check. unfold create_order. cbn [get_candles get_balance buy].
    destruct (_analyze_market pd (get_candles b)) as [l1 [[d|]|e]];
      try reflexivity.
    destruct (get_balance b) as [bal|e]; [|reflexivity].
    cbn [set_direction amount direction].
    destruct (buy b (amount s) d) as [[[|] id]|e] eqn:Hb; try reflexivity.
    destruct (Hbuy d id Hb).
Qed.

Lemma refused_order_keeps_stake_witness :
  (forall d id,
      buy (rejecting_broker crossing_series) (amount at_cap) d
      <> Ok (true, id))
  /\ stake_fields
       (trader_after (create_order Kernels.reference cfg10 at_cap
                        (rejecting_broker crossing_series)))
     = stake_fields at_cap.
Proof.
  assert (H : forall d id,
             buy (rejecting_broker crossing_series) (amount at_cap) d
             <> Ok (true, id)) by (intros d id; discriminate).
  split; [exact H|].
  exact (proj1 (refused_order_keeps_stake Kernels.reference cfg10 at_cap
                  (rejecting_broker crossing_series) H)).
Defined.

(** X9.  When the settlement of an accepted order raises, the cycle logs
    the exception as an order-processing error last and leaves the trader
    as it was when the order was placed. *)
Theorem failed_settlement_keeps_trader (pd : pandas) (cfg : config)
    (s : trader) (b : broker) (d : trade_direction) (bal : float) (id : Z)
    (win : float) (e : exn) :
  snd (_analyze_market pd (get_candles b)) = Ok (Some d) ->
  get_balance b = Ok bal ->
  buy b (amount s) d = Ok (true, id) ->
  check_win_v3 b id = Ok win ->
  snd (_handle_order_result cfg (set_direction s d) win) = Raise e ->
  trader_after (create_order pd cfg s b) = set_direction s d
  /\ exists l, logged (create_order pd cfg s b)
               = l ++ [InfoLoss win; ErrOrderProcessing e].
Proof.
  intros Ha Hbal Hbuy Hwin Hraise. unfold create_order.
  destruct (_analyze_market pd (get_candles b)) as [l1 r].
  cbn [snd] in Ha. subst r. rewrite Hbal.
  cbn [set_direction amount direction]. rewrite Hbuy. cbn [negb].
  rewrite Hwin.
  destruct (transition_raises_only_overflow _ _ _ _ Hraise) as (_ & Hw & _).
  rewrite (handle_loss cfg _ win Hw) in Hraise |- *.
  destruct (loss_increment win) as [r|e'].
  - cbv zeta in Hraise.
    destruct (max_martingel cfg <? _); discriminate.
  - cbn [snd] in Hraise. inversion Hraise; subst.
    cbn [trader_after logged]. split; [reflexivity|].
    eexists. reflexivity.
Qed.

Lemma failed_settlement_keeps_trader_witness :
  snd (_analyze_market Kernels.reference
         (get_candles (broker_of crossing_series (SFopp huge_float))))
  = Ok (Some call)
  /\ get_balance (broker_of crossing_series (SFopp huge_float))
     = Ok (of_Z 1000)
  /\ buy (broker_of crossing_series (SFopp huge_float)) (amount at_cap) call
     = Ok (true, 1)
  /\ check_win_v3 (broker_of crossing_series (SFopp huge_float)) 1
     = Ok (SFopp huge_float)
  /\ snd (_handle_order_result cfg10 (set_direction at_cap call)
            (SFopp huge_float)) = Raise OverflowError
  /\ trader_after (create_order Kernels.reference cfg10 at_cap
                     (broker_of crossing_series (SFopp huge_float)))
     = set_direction at_cap call.
Proof.
  assert (Ha : snd (_analyze_market Kernels.reference
                      (get_candles
                         (broker_of crossing_series (SFopp huge_float))))
               = Ok (Some call)) by (vm_compute; reflexivity).
  split; [exact Ha|]. repeat (split; [reflexivity|]).
  exact (proj1 (failed_settlement_keeps_trader Kernels.reference cfg10 at_cap
                  (broker_of crossing_series (SFopp huge_float)) call
                  (of_Z 1000) 1 (SFopp huge_float) OverflowError
                  Ha eq_refl eq_refl eq_refl eq_refl)).
Defined.

(** X10.  From a state with the depth within the cap and the stake at
    least the starting stake (the starting stake at depth 0), a run of any
    turns ends in such a state, and every order of the run is placed with
    a stake of at least the starting stake. *)
Theorem run_keeps_control (pd : pandas) (cfg : config)
    (ticks : list tick) :
  forall s : trader,
  controlled cfg s ->
  controlled cfg (final (run pd cfg s ticks))
  /\ Forall (fun c => start_bet cfg <= fst c) (orders (run pd cfg s ticks)).
Proof.
  induction ticks as [|[b|] ticks IH]; intros s Hs; cbn [run final orders];
    auto.
  assert (Hcycle : controlled cfg (trader_after (create_order pd cfg s b))
                   /\ Forall (fun c => start_bet cfg <= fst c)
                        (buy_calls (create_order pd cfg s b))).
  { assert (Hd : forall d, controlled cfg (set_direction s d)) by
      (intros d; exact Hs).
    destruct (cycle_outcomes pd cfg s b)
      as [[-> ->]|(d & _ & -> & [->|(id & win & _ & _ & Hh)])].
    - auto.
    - split; [apply Hd|]. repeat constructor. apply Hs.
    - split; [exact (step_keeps_control _ _ _ _ Hh (Hd d))|].
      repeat constructor. apply Hs. }
  destruct Hcycle as (Hc & Ho). destruct (IH _ Hc) as (Hf & Hos).
  split; [exact Hf|]. apply Forall_app. auto.
Qed.

Lemma controlled_init cfg : controlled cfg (__init__ cfg).
Proof. unfold controlled. cbn. lia. Defined.

Lemma run_keeps_control_witness :
  controlled cfg10 (__init__ cfg10)
  /\ Forall (fun c => start_bet cfg10 <= fst c)
       (orders (run Kernels.reference cfg10 (__init__ cfg10)
                  [Tick (broker_of crossing_series (of_Z (-10)));
                   Tick (broker_of crossing_series (of_Z 8));
                   KeyboardInterrupt])).
Proof.
  split; [exact (controlled_init cfg10)|].
  exact (proj2 (run_keeps_control Kernels.reference cfg10 _
                  (__init__ cfg10) (controlled_init cfg10))).
Defined.

(** X11.  Over a run the win counter grows by the number of win lines
    logged, the loss counter by at most the number of loss lines, and
    there are at least as many orders as lines of either kind. *)
Theorem run_counts_settlements (pd : pandas) (cfg : config)
    (ticks : list tick) :
  forall s : trader,
  gameWin (final (run pd cfg s ticks))
  = gameWin s
    + Z.of_nat (List.length (filter is_info_win
                               (run_log (run pd cfg s ticks))))
  /\ gameLose s <= gameLose (final (run pd cfg s ticks))
     <= gameLose s
        + Z.of_nat (List.length (filter is_info_loss
                                   (run_log (run pd cfg s ticks))))
  /\ (List.length (filter is_info_win (run_log (run pd cfg s ticks)))
      + List.length (filter is_info_loss (run_log (run pd cfg s ticks)))
      <= List.length (orders (run pd cfg s ticks)))%nat.
Proof.
  induction ticks as [|[b|] ticks IH]; intros s;
    cbn [run final orders run_log filter List.length]; try lia.
  specialize (IH (trader_after (create_order pd cfg s b))).
  rewrite !filter_app, !length_app.
  assert (Hcycle :
            gameWin (trader_after (create_order pd cfg s b))
            = gameWin s
              + Z.of_nat (List.length
                            (filter is_info_win
                               (logged (create_order pd cfg s b))))
            /\ gameLose s
               <= gameLose (trader_after (create_order pd cfg s b))
               <= gameLose s
                  + Z.of_nat (List.length
                                (filter is_info_loss
                                   (logged (create_order pd cfg s b))))
            /\ (List.length (filter is_info_win
                               (logged (create_order pd cfg s b)))
                + List.length (filter is_info_loss
                                 (logged (create_order pd cfg s b)))
                <= List.length (buy_calls (create_order pd cfg s b)))%nat).
  { unfold create_order.
    pose proof (analysis_logs_no_settlement pd (get_candles b)) as Hlog.
    destruct (_analyze_market pd (get_candles b)) as [l1 r].
    cbn [fst] in Hlog.
    assert (Hw : filter is_info_win l1 = []).
    { clear -Hlog. induction Hlog as [|ev l (Hev & _) _ IHl]; cbn;
        [reflexivity|]. rewrite Hev. exact IHl. }
    assert (Hl : filter is_info_loss l1 = []).
    { clear -Hlog. induction Hlog as [|ev l (_ & Hev) _ IHl]; cbn;
        [reflexivity|]. rewrite Hev. exact IHl. }
    destruct r as [[d|]|e];
      cbn [trader_after logged buy_calls];
      rewrite ?filter_app, ?Hw, ?Hl; cbn; try lia.
    destruct (get_balance b) as [bal|e];
      cbn [trader_after logged buy_calls];
      rewrite ?filter_app, ?Hw, ?Hl; cbn; try lia.
    destruct (buy b (amount s) d) as [[[|] id]|e]; cbn [negb];
      cbn [trader_after logged buy_calls];
      rewrite ?filter_app, ?Hw, ?Hl; cbn; try lia.
    destruct (check_win_v3 b id) as [win|e];
      cbn [trader_after logged buy_calls];
      rewrite ?filter_app, ?Hw, ?Hl; cbn; try lia.
    destruct (flt win fzero) eqn:Hwin.
    - rewrite (handle_loss cfg _ win Hwin).
      destruct (loss_increment win) as [r|e];
        [cbv zeta; destruct (max_martingel cfg <? _)|];
        cbn [trader_after logged buy_calls];
        rewrite ?filter_app, ?Hw, ?Hl; cbn; lia.
    - rewrite (handle_win cfg _ win Hwin).
      cbn [trader_after logged buy_calls];
        rewrite ?filter_app, ?Hw, ?Hl; cbn; lia. }
  lia.
Qed.

(** ** Price data and warm-up *)

Section PriceData.

Lemma price_fields_ok c v :
  price_fields c = Ok v ->
  candle_prices c
  = (let '(o, cl, lo, hi) := v in (Some o, Some cl, Some lo, Some hi)).
Proof.
  unfold price_fields, candle_prices.
  destruct (c_open c) as [o|]; cbn; [|discriminate].
  destruct (c_close c) as [cl|]; cbn; [|discriminate].
  destruct (c_min c) as [lo|]; cbn; [|discriminate].
  destruct (c_max c) as [hi|]; cbn; [|discriminate].
  intros H; inversion H. reflexivity.
Qed.

(** Reading the keys of all candles succeeds exactly on complete candles,
    and then gives their prices and their ids. *)
Lemma read_candles cs :
  match map_result price_fields cs,
        map_result (fun c => getitem "id" (c_id c)) cs with
  | Ok fs, Ok ids =>
      Forall complete cs /\ ids = candle_ids cs
      /\ List.length fs = List.length cs
      /\ map candle_prices cs
         = map (fun v : float * float * float * float =>
                  let '(o, cl, lo, hi) := v in
                  (Some o, Some cl, Some lo, Some hi)) fs
  | Raise e, _ | Ok _, Raise e =>
      ~ Forall complete cs /\ exists key, e = KeyError key
  end.
Proof.
  induction cs as [|c cs IH]; cbn [map_result].
  - cbn. repeat split. constructor.
  - destruct (price_fields c) as [v|e] eqn:Hv.
    + pose proof (price_fields_ok c v Hv) as Hp.
      assert (Hprice : c_open c <> None /\ c_close c <> None
                       /\ c_min c <> None /\ c_max c <> None).
      { unfold candle_prices in Hp. destruct v as [[[o cl] lo] hi].
        inversion Hp. repeat split; congruence. }
      destruct (map_result price_fields cs) as [fs|e].
      * destruct (c_id c) as [i|] eqn:Hi; cbn [getitem].
        -- destruct (map_result (fun c => getitem "id" (c_id c)) cs)
             as [ids|e].
           ++ destruct IH as (Hall & Hids & Hlen & Hmap).
              repeat split.
              ** constructor; [|exact Hall]. unfold complete.
                 rewrite Hi. split; [discriminate|exact Hprice].
              ** cbn. rewrite Hi, Hids. reflexivity.
              ** cbn. congruence.
              ** cbn [map]. rewrite Hp, Hmap. reflexivity.
           ++ destruct IH as (Hn & Hk). split; [|exact Hk].
              intros H; inversion H; auto.
        -- split; [|eauto].
           intros H; inversion H as [|? ? Hc _]; subst.
           destruct Hc as (Hc & _). congruence.
      * destruct IH as (Hn & Hk). split; [|exact Hk].
        intros H; inversion H; auto.
    + pose proof (price_fields_first c) as Hf. rewrite Hv in Hf.
      destruct (first_missing_key c) as [key|].
      * destruct Hf as (Hf & _). inversion Hf; subst. split; [|eauto].
        intros H; inversion H as [|? ? Hc _]; subst.
        unfold price_fields in Hv. destruct Hc as (_ & Ho & Hcl & Hlo & Hhi).
        destruct (c_open c); [|congruence].
        destruct (c_close c); [|congruence].
        destruct (c_min c); [|congruence].
        destruct (c_max c); [|congruence]. discriminate.
      * destruct Hf as ((v & Hf) & _). discriminate.
Qed.

Lemma zip_rows_columns index fs :
  List.length index = List.length fs ->
  map p_id (zip_rows index fs) = index
  /\ map row_prices (zip_rows index fs)
     = map (fun v : float * float * float * float =>
              let '(o, cl, lo, hi) := v in
              (Some o, Some cl, Some lo, Some hi)) fs.
Proof.
  revert fs. induction index as [|i index IH]; intros [|[[[o cl] lo] hi] fs];
    cbn; try discriminate; auto.
  intros H. destruct (IH fs ltac:(congruence)) as (-> & ->). auto.
Qed.

(** The first rows have no rolling mean, and are dropped. *)
Lemma warm_up_rows_dropped pd (l : list price_row) :
  warms_up pd ->
  (List.length (dropna (with_indicators pd l)) <= List.length l - 19)%nat.
Proof.
  intros Hwarm. unfold with_indicators, dropna.
  set (g := fun ir : nat * price_row => _).
  assert (Hg : forall i r, (i < 19)%nat -> row_has_nan (g (i, r)) = true).
  { intros i r Hi. subst g. unfold row_has_nan. cbn [SMA].
    rewrite (Hwarm 20%nat (map p_close l) i Hi).
    rewrite !orb_true_r. reflexivity. }
  clearbody g.
  assert (H : forall (k : list price_row) a,
             (List.length
                (filter (fun r => negb (row_has_nan r))
                        (map g (combine (seq a (List.length k)) k)))
              <= List.length k - (19 - a))%nat).
  { induction k as [|r k IH]; intros a; cbn [List.length seq combine map filter];
      [lia|].
    specialize (IH (S a)).
    destruct (Nat.lt_ge_cases a 19) as [Hlt|Hge].
    - rewrite (Hg a r Hlt). cbn [negb]. lia.
    - destruct (negb (row_has_nan (g (a, r)))); cbn [List.length]; lia. }
  specialize (H l 0%nat). lia.
Qed.

(** The reference kernels give no rolling value before the window fills. *)
Lemma reference_warms_up : warms_up Kernels.reference.
Proof.
  intros w l i Hi. cbn [rolling_mean Kernels.reference].
  unfold Kernels.rolling.
  destruct (Nat.lt_ge_cases i (List.length l)) as [Hlt|Hge].
  - rewrite (nth_indep _ fnan
               (match Kernels.window w 0 l with
                | Some xs => Kernels.mean xs
                | None => fnan
                end)) by (rewrite length_map, length_seq; exact Hlt).
    rewrite (map_nth (fun i => match Kernels.window w i l with
                               | Some xs => Kernels.mean xs
                               | None => fnan
                               end) (seq 0 (List.length l)) 0%nat i).
    rewrite seq_nth by exact Hlt. cbn [Nat.add].
    unfold Kernels.window.
    destruct (Nat.ltb_spec i (w - 1)); [reflexivity|lia].
  - rewrite nth_overflow by (rewrite length_map, length_seq; exact Hge).
    reflexivity.
Qed.

End PriceData.

(** X12.  From candles that all have all their keys, and whose ids
    [to_datetime] turns into an index of as many values, the frame is
    built with nothing logged: one row per candle, in the candles' order,
    each with its index value, the candle's open and close, its ['min'] as
    low and its ['max'] as high. *)
Theorem complete_candles_frame (pd : pandas) (cs : list candle)
    (index : list Z) :
  Forall complete cs ->
  to_datetime pd (candle_ids cs) = Ok index ->
  List.length index = List.length cs ->
  exists rs,
    _get_price_data pd (Ok cs)
    = ([], Ok {| columns := match cs with
                            | [] => []
                            | _ => ["open"; "close"; "low"; "high"]%string
                            end;
                 rows := rs |})
    /\ List.length rs = List.length cs
    /\ map p_id rs = index
    /\ map row_prices rs = map candle_prices cs.
Proof.
  intros Hall Hidx Hlen. pose proof (read_candles cs) as Hread.
  unfold _get_price_data, build_frame.
  destruct (map_result price_fields cs) as [fs|e];
    [|destruct Hread as (Hn & _); contradiction].
  destruct (map_result (fun c => getitem "id" (c_id c)) cs) as [ids|e];
    [|destruct Hread as (Hn & _); contradiction].
  destruct Hread as (_ & -> & Hfs & Hmap). rewrite Hidx.
  assert (Heq : List.length index = List.length fs) by congruence.
  rewrite (proj2 (Nat.eqb_eq _ _) Heq).
  destruct (zip_rows_columns index fs Heq) as (Hid & Hpr).
  exists (zip_rows index fs). repeat split.
  - cbn. destruct fs, cs; try reflexivity; discriminate.
  - rewrite <- (length_map p_id), Hid. exact Hlen.
  - exact Hid.
  - rewrite Hpr, Hmap. reflexivity.
Qed.

Lemma complete_candles_frame_witness :
  Forall complete (flat 2)
  /\ to_datetime Kernels.reference (candle_ids (flat 2))
     = Ok [0; 1000000000]
  /\ List.length [0; 1000000000] = List.length (flat 2)
  /\ exists rs,
       _get_price_data Kernels.reference (Ok (flat 2))
       = ([], Ok {| columns := match flat 2 with
                               | [] => []
                               | _ => ["open"; "close"; "low"; "high"]%string
                               end;
                    rows := rs |})
       /\ List.length rs = List.length (flat 2)
       /\ map p_id rs = [0; 1000000000]
       /\ map row_prices rs = map candle_prices (flat 2).
Proof.
  assert (H : Forall complete (flat 2)).
  { repeat constructor; discriminate. }
  split; [exact H|]. split; [reflexivity|]. split; [reflexivity|].
  exact (complete_candles_frame Kernels.reference (flat 2) [0; 1000000000]
           H eq_refl eq_refl).
Defined.

(** X13.  The fetch logs nothing exactly when every candle has all its
    keys and [to_datetime] turns the ids into an index of as many values;
    otherwise it logs one failure and answers the empty frame, and the
    failure is a [KeyError] when a candle lacks a key. *)
Theorem fetch_fails_on_missing_key (pd : pandas) (cs : list candle) :
  (fst (_get_price_data pd (Ok cs)) = []
   <-> Forall complete cs
       /\ exists index, to_datetime pd (candle_ids cs) = Ok index
                        /\ List.length index = List.length cs)
  /\ (fst (_get_price_data pd (Ok cs)) = []
      \/ exists e, _get_price_data pd (Ok cs)
                   = ([ErrFetchFailed e], Ok empty_frame))
  /\ (~ Forall complete cs ->
      exists key, _get_price_data pd (Ok cs)
                  = ([ErrFetchFailed (KeyError key)], Ok empty_frame)).
Proof.
  pose proof (read_candles cs) as Hread.
  unfold _get_price_data, build_frame.
  destruct (map_result price_fields cs) as [fs|e].
  - destruct (map_result (fun c => getitem "id" (c_id c)) cs) as [ids|e].
    + destruct Hread as (Hall & -> & Hfs & _).
      destruct (to_datetime pd (candle_ids cs)) as [index|e].
      * destruct (Nat.eqb_spec (List.length index) (List.length fs))
          as [Heq|Hne]; cbn.
        -- repeat split; auto; try contradiction.
           exists index. split; [reflexivity|congruence].
        -- repeat split; eauto; try contradiction; try discriminate.
           intros (_ & index' & Hi & Hl). inversion Hi; subst. congruence.
      * cbn. repeat split; eauto; try contradiction; try discriminate.
        intros (_ & index' & Hi & _). discriminate.
    + destruct Hread as (Hn & key & ->). cbn.
      repeat split; eauto; try discriminate. intros (Hall & _). contradiction.
  - destruct Hread as (Hn & key & ->). cbn.
    repeat split; eauto; try discriminate. intros (Hall & _). contradiction.
Qed.

(** X14.  With a rolling mean that has no value before its window of 20
    fills, as pandas documents, fewer than 21 candles give no signal. *)
Theorem warm_up_no_signal (pd : pandas) (cs : list candle) :
  warms_up pd ->
  (List.length cs < 21)%nat ->
  snd (_analyze_market pd (Ok cs)) = Ok None.
Proof.
  intros Hwarm Hlen. apply few_rows_no_signal. unfold trimmed_rows.
  destruct (get_price_data_cases pd (Ok cs))
    as [(e & Hg)|(cs' & f & Hcs & Hf & Hg)]; rewrite Hg; cbn [snd].
  - cbn. lia.
  - inversion Hcs; subst cs'.
    destruct (build_frame_rows pd cs f Hf) as (Hle & _).
    pose proof (warm_up_rows_dropped pd (rows f) Hwarm). lia.
Qed.

Lemma warm_up_no_signal_witness :
  warms_up Kernels.reference
  /\ (List.length (flat 20) < 21)%nat
  /\ snd (_analyze_market Kernels.reference (Ok (flat 20))) = Ok None.
Proof.
  assert (Hlen : (List.length (flat 20) < 21)%nat) by (vm_compute; lia).
  split; [exact reference_warms_up|]. split; [exact Hlen|].
  exact (warm_up_no_signal Kernels.reference (flat 20)
           reference_warms_up Hlen).
Defined.

(** X15.  A signal is given only on two surviving rows or more, and then
    with nothing logged. *)
Theorem signal_needs_two_rows (pd : pandas) (fetched : result (list candle))
    (d : trade_direction) :
  snd (_analyze_market pd fetched) = Ok (Some d) ->
  (2 <= List.length (trimmed_rows pd fetched))%nat
  /\ fst (_analyze_market pd fetched) = [].
Proof.
  intros Hd.
  destruct (Nat.lt_ge_cases (List.length (trimmed_rows pd fetched)) 2)
    as [Hlt|Hge].
  - rewrite (few_rows_no_signal pd fetched Hlt) in Hd. discriminate.
  - split; [exact Hge|].
    destruct (analysis_of_trimmed pd fetched Hge) as (l & r & _ & _ & _ & Ha).
    unfold _analyze_market. rewrite Ha. reflexivity.
Qed.

Lemma signal_needs_two_rows_witness :
  snd (_analyze_market Kernels.reference (Ok crossing_series))
  = Ok (Some call)
  /\ (2 <= List.length (trimmed_rows Kernels.reference (Ok crossing_series)))%nat
  /\ fst (_analyze_market Kernels.reference (Ok crossing_series)) = [].
Proof.
  assert (H : snd (_analyze_market Kernels.reference (Ok crossing_series))
              = Ok (Some call)) by (vm_compute; reflexivity).
  split; [exact H|].
  exact (signal_needs_two_rows Kernels.reference (Ok crossing_series) call H).
Defined.

(** X16.  Whatever the candles and the kernels, the setup the analysis
    computes has no cross-over and no cross-under, and so neither a buy
    nor a sell signal. *)
Theorem setup_never_signals (pd : pandas) (fetched : result (list candle))
    (st : setups) (d : option trade_direction) :
  snd (analysis pd fetched) = Ok (Some (st, d)) ->
  crossOver st = false /\ crossUnder st = false
  /\ Signal_buy st = false /\ Signal_sell st = false.
Proof. apply setups_never_cross. Qed.

Lemma setup_never_signals_witness :
  snd (analysis Kernels.reference (Ok crossing_series))
  = Ok (Some ({| trendUp := true; trendDn := false; priceIn := false;
                 crossOver := false; crossUnder := false;
                 Signal_buy := false; Signal_sell := false |}, Some call))
  /\ Signal_buy {| trendUp := true; trendDn := false; priceIn := false;
                  crossOver := false; crossUnder := false;
                  Signal_buy := false; Signal_sell := false |} = false.
Proof.
  assert (H : snd (analysis Kernels.reference (Ok crossing_series))
              = Ok (Some ({| trendUp := true; trendDn := false;
                             priceIn := false; crossOver := false;
                             crossUnder := false; Signal_buy := false;
                             Signal_sell := false |}, Some call)))
    by (vm_compute; reflexivity).
  split; [exact H|].
  exact (proj1 (proj2 (proj2
    (setup_never_signals Kernels.reference (Ok crossing_series) _ _ H)))).
Defined.

(** ** Start-up *)

Section Strings.

Lemma replace_char_length old new s :
  String.length (replace_char old new s) = String.length s.
Proof. induction s as [|c s IH]; cbn; congruence. Qed.

Lemma replace_char_append old new s t :
  replace_char old new (s ++ t)
  = (replace_char old new s ++ replace_char old new t)%string.
Proof. induction s as [|c s IH]; cbn; congruence. Qed.

Lemma replace_char_removes old new s :
  new <> old -> contains_char old (replace_char old new s) = false.
Proof.
  intros Hne. induction s as [|c s IH]; cbn; [reflexivity|].
  rewrite IH, orb_false_r.
  destruct (Ascii.eqb_spec c old) as [->|Hc].
  - apply Ascii.eqb_neq, Hne.
  - apply Ascii.eqb_neq, Hc.
Qed.

Lemma replace_char_keeps_out c old new s :
  new <> c -> contains_char c s = false ->
  contains_char c (replace_char old new s) = false.
Proof.
  intros Hne. induction s as [|a s IH]; cbn; [reflexivity|].
  intros H. apply orb_false_iff in H. destruct H as (Ha & Hs).
  rewrite (IH Hs), orb_false_r.
  destruct (Ascii.eqb a old); [apply Ascii.eqb_neq, Hne|exact Ha].
Qed.

Lemma replace_char_absent old new s :
  contains_char old s = false -> replace_char old new s = s.
Proof.
  induction s as [|a s IH]; cbn; [reflexivity|].
  intros H. apply orb_false_iff in H. destruct H as (Ha & Hs).
  rewrite Ha, (IH Hs). reflexivity.
Qed.

Lemma contains_char_append c s t :
  contains_char c (s ++ t) = contains_char c s || contains_char c t.
Proof.
  induction s as [|a s IH]; cbn; [reflexivity|].
  rewrite IH, orb_assoc. reflexivity.
Qed.

Lemma append_assoc_string (s t u : string) :
  (s ++ (t ++ u))%string = ((s ++ t) ++ u)%string.
Proof. induction s as [|a s IH]; cbn; congruence. Qed.

Lemma length_append s t :
  String.length (s ++ t) = (String.length s + String.length t)%nat.
Proof. induction s as [|a s IH]; cbn; congruence. Qed.

End Strings.

(** X17.  The name of the log file has neither a slash nor a colon, so the
    file lies in the [log] directory itself, and it is four characters
    longer than the asset's name. *)
Theorem log_file_name_safe (asset_name : string) :
  contains_char "/" (log_file_name asset_name) = false
  /\ contains_char ":" (log_file_name asset_name) = false
  /\ String.length (log_file_name asset_name)
     = (String.length asset_name + 4)%nat.
Proof.
  unfold log_file_name. repeat split.
  - apply replace_char_keeps_out; [discriminate|].
    apply replace_char_removes. discriminate.
  - apply replace_char_removes. discriminate.
  - rewrite !replace_char_length, length_append. reflexivity.
Qed.

(** X18.  For an asset's name without slash or colon the log file is the
    name followed by [.log]. *)
Theorem log_file_name_clean (asset_name : string) :
  contains_char "/" asset_name = false ->
  contains_char ":" asset_name = false ->
  log_file_name asset_name = (asset_name ++ ".log")%string.
Proof.
  intros Hs Hc. unfold log_file_name.
  rewrite (replace_char_absent "/" "_" (asset_name ++ ".log"));
    [apply replace_char_absent|];
    rewrite contains_char_append, ?Hs, ?Hc; reflexivity.
Qed.

Lemma log_file_name_clean_witness :
  contains_char "/" "GBPUSD-OTC" = false
  /\ contains_char ":" "GBPUSD-OTC" = false
  /\ log_file_name "GBPUSD-OTC" = ("GBPUSD-OTC" ++ ".log")%string.
Proof.
  split; [reflexivity|]. split; [reflexivity|].
  exact (log_file_name_clean "GBPUSD-OTC" eq_refl eq_refl).
Defined.

(** X19.  Assets whose names differ only in a slash, a colon or an
    underscore at some place write to the same log file. *)
Theorem log_file_name_collision (u v : string) :
  log_file_name (u ++ String "/" v) = log_file_name (u ++ String "_" v)
  /\ log_file_name (u ++ String ":" v) = log_file_name (u ++ String "_" v).
Proof.
  unfold log_file_name.
  rewrite <- !append_assoc_string.
  rewrite !replace_char_append. cbn [replace_char Ascii.eqb Bool.eqb].
  split; reflexivity.
Qed.

Section Configuration.

Variable py_int : string -> option Z.

Lemma dict_get_map_str k (e : dict string) :
  dict_get k (map (fun kv => (fst kv, EnvStr (snd kv))) e)
  = option_map EnvStr (dict_get k e).
Proof.
  induction e as [|[k' v] e IH]; cbn; [reflexivity|].
  destruct (String.eqb k' k); [reflexivity|exact IH].
Qed.

Lemma dict_get_set_same {A} k (v : A) d : dict_get k (dict_set k v d) = Some v.
Proof.
  induction d as [|[k' v'] d IH]; cbn.
  - rewrite String.eqb_refl. reflexivity.
  - destruct (String.eqb k' k) eqn:E; cbn.
    + rewrite String.eqb_refl. reflexivity.
    + rewrite E. exact IH.
Qed.

Lemma dict_get_set_other {A} k k' (v : A) d :
  k' <> k -> dict_get k (dict_set k' v d) = dict_get k d.
Proof.
  intros Hne. induction d as [|[k'' v''] d IH]; cbn.
  - apply String.eqb_neq in Hne. rewrite Hne. reflexivity.
  - destruct (String.eqb k'' k') eqn:E; cbn.
    + apply String.eqb_eq in E. subst k''.
      apply String.eqb_neq in Hne. rewrite Hne. reflexivity.
    + destruct (String.eqb k'' k); [reflexivity|exact IH].
Qed.

(** What [get_env_data] holds under a key. *)
Lemma get_env_data_get (e : dict string) k :
  dict_get k (get_env_data e)
  = if String.eqb k "LOG_"
    then option_map (fun v => EnvBool (String.eqb (lower v) "true"))
           (dict_get k e)
    else option_map EnvStr (dict_get k e).
Proof.
  unfold get_env_data. rewrite dict_get_map_str.
  destruct (String.eqb_spec k "LOG_") as [->|Hne].
  - destruct (dict_get "LOG_" e) as [v|] eqn:Hv; cbn.
    + apply dict_get_set_same.
    + rewrite dict_get_map_str, Hv. reflexivity.
  - destruct (dict_get "LOG_" e) as [v|]; cbn.
    + rewrite dict_get_set_other by congruence. apply dict_get_map_str.
    + apply dict_get_map_str.
Qed.

Lemma required_not_log f t :
  In (f, t) required_fields -> String.eqb f "LOG_" = false.
Proof.
  unfold required_fields. cbn [In].
  intros [H|[H|[H|[H|[H|[H|[]]]]]]]; inversion H; reflexivity.
Qed.

(** The loop succeeds exactly when every field is there and converts. *)
Lemma load_fields_ok fields env_data :
  forall config,
  (exists c, load_fields py_int fields env_data config = inr c)
  <-> (forall f t, In (f, t) fields ->
         exists v c, dict_get f env_data = Some v
                     /\ convert py_int t v = inr c).
Proof.
  induction fields as [|[f t] fields IH]; intros config; cbn [load_fields].
  - split; [intros _ f t []|eauto].
  - split.
    + intros (c & Hc) g tg [Hg|Hg].
      * inversion Hg; subst g tg.
        destruct (dict_get f env_data) as [v|]; [|discriminate].
        destruct (convert py_int t v) as [|c'] eqn:Hconv; [discriminate|].
        exists v, c'. auto.
      * destruct (dict_get f env_data) as [v|]; [|discriminate].
        destruct (convert py_int t v) as [|c']; [discriminate|].
        apply (proj1 (IH _) (ex_intro _ c Hc) g tg Hg).
    + intros Hall.
      destruct (Hall f t (or_introl eq_refl)) as (v & c & -> & ->).
      apply IH. intros g tg Hg. apply Hall. right. exact Hg.
Qed.

End Configuration.

(** X20.  [get_env_data] hands on every variable of the environment as it
    is, except [LOG_], which becomes the bool saying whether its text is
    [true] in any casing. *)
Theorem get_env_data_lookup (e : dict string) (k : string) :
  dict_get k (get_env_data e)
  = if String.eqb k "LOG_"
    then option_map (fun v => EnvBool (String.eqb (lower v) "true"))
           (dict_get k e)
    else option_map EnvStr (dict_get k e).
Proof. apply get_env_data_get. Qed.

(** X21.  The configuration loads exactly when each of the six required
    variables is set and the three numeric ones read as integers;
    otherwise one configuration error is logged and there is no
    configuration. *)
Theorem load_config_succeeds_iff (py_int : string -> option Z)
    (e : dict string) :
  ((exists config, _load_config py_int e = ([], Some config))
   <-> (forall f t, In (f, t) required_fields ->
          exists v, dict_get f e = Some v
                    /\ (t = TInt -> py_int v <> None)))
  /\ ((exists config, _load_config py_int e = ([], Some config))
      \/ exists err, _load_config py_int e = ([ErrConfiguration err], None)).
Proof.
  unfold _load_config.
  pose proof (load_fields_ok py_int required_fields (get_env_data e) [])
    as Hok.
  split.
  - split.
    + intros (config & Hc).
      assert (Hex : exists c, load_fields py_int required_fields
                                (get_env_data e) [] = inr c).
      { destruct (load_fields _ _ _ _) as [|c]; [discriminate|eauto]. }
      intros f t Hin.
      destruct (proj1 Hok Hex f t Hin) as (v & c & Hv & Hconv).
      rewrite get_env_data_get, (required_not_log f t Hin) in Hv.
      destruct (dict_get f e) as [s|]; [|discriminate].
      inversion Hv; subst v. exists s. split; [reflexivity|].
      intros ->. cbn in Hconv. destruct (py_int s); [discriminate|].
      discriminate.
    + intros Hall.
      destruct (proj2 Hok) as (c & ->); [|eauto].
      intros f t Hin. destruct (Hall f t Hin) as (v & Hv & Hint).
      exists (EnvStr v). rewrite get_env_data_get, (required_not_log f t Hin), Hv.
      destruct t; cbn; [eauto|].
      destruct (py_int v) as [n|]; [eauto|]. destruct (Hint eq_refl eq_refl).
  - destruct (load_fields _ _ _ _) as [err|c]; eauto.
Qed.

(** X22.  When a required variable is not set, or a numeric one does not
    read as an integer, the constructor logs the configuration error and
    fails on the missing configuration, before any call to the broker. *)
Theorem constructor_without_config (py_int : string -> option Z)
    (e : dict string) (acct : account_api) (SELECT_ASSET f : string)
    (t : field_type) :
  In (f, t) required_fields ->
  dict_get f e = None
  \/ (t = TInt /\ exists v, dict_get f e = Some v /\ py_int v = None) ->
  exists err,
    IQOptionTrader py_int e acct SELECT_ASSET
    = ([ErrConfiguration err], [], AttributeError).
Proof.
  intros Hin Hbad. unfold IQOptionTrader.
  destruct (load_config_succeeds_iff py_int e) as ((Hiff & _) & [(c & Hc)|(err & ->)]).
  - destruct (Hiff (ex_intro _ c Hc) f t Hin) as (v & Hv & Hint).
    destruct Hbad as [Hnone|(-> & v' & Hv' & Hn)]; [congruence|].
    rewrite Hv in Hv'. inversion Hv'; subst v'.
    destruct (Hint eq_refl Hn).
  - eauto.
Qed.

Lemma constructor_without_config_witness :
  In ("START_BET"%string, TInt) required_fields
  /\ (dict_get "START_BET" [("API_USERNAME", "user")]%string = None
      \/ (TInt = TInt
          /\ exists v, dict_get "START_BET" [("API_USERNAME", "user")]%string
                       = Some v /\ int_of_decimal v = None))
  /\ exists err,
       IQOptionTrader int_of_decimal [("API_USERNAME", "user")]%string
         refusing_account "GBPUSD-OTC"
       = ([ErrConfiguration err], [], AttributeError).
Proof.
  assert (Hin : In ("START_BET"%string, TInt) required_fields)
    by (right; right; left; reflexivity).
  assert (Hbad : dict_get "START_BET" [("API_USERNAME", "user")]%string = None
                 \/ (TInt = TInt
                     /\ exists v,
                          dict_get "START_BET"
                            [("API_USERNAME", "user")]%string = Some v
                          /\ int_of_decimal v = None))
    by (left; reflexivity).
  split; [exact Hin|]. split; [exact Hbad|].
  exact (constructor_without_config int_of_decimal _ refusing_account
           "GBPUSD-OTC" "START_BET" TInt Hin Hbad).
Defined.

(** X23.  With the six variables set and the numeric ones read as [sb],
    [mx] and [ex], the constructor yields the trader at its starting state
    for the configuration of these values and the asset asked for,
    whatever the broker answers at start-up; it logs, and calls, what the
    connection does. *)
Theorem constructor_with_config (py_int : string -> option Z)
    (e : dict string) (acct : account_api) (SELECT_ASSET : string)
    (u p ab sbs mxs exs : string) (sb mx ex : Z) :
  dict_get "API_USERNAME" e = Some u ->
  dict_get "API_PASSWORD" e = Some p ->
  dict_get "START_BET" e = Some sbs -> py_int sbs = Some sb ->
  dict_get "MAX_MARTINGEL" e = Some mxs -> py_int mxs = Some mx ->
  dict_get "EXPIRATION" e = Some exs -> py_int exs = Some ex ->
  dict_get "API_BALANCE" e = Some ab ->
  IQOptionTrader py_int e acct SELECT_ASSET
  = (fst (_initialize_connection u p ab acct),
     snd (_initialize_connection u p ab acct),
     Constructed
       {| start_bet := sb; max_martingel := mx;
          select_asset := SELECT_ASSET; expiration := ex;
          api_balance := ab |}
       (__init__ {| start_bet := sb; max_martingel := mx;
                    select_asset := SELECT_ASSET; expiration := ex;
                    api_balance := ab |})).
Proof.
  intros Hu Hp Hsb Hsbn Hmx Hmxn Hex Hexn Hab.
  unfold IQOptionTrader, _load_config, required_fields.
  cbn [load_fields].
  rewrite !get_env_data_get, Hu, Hp, Hsb, Hmx, Hex, Hab.
  cbn [String.eqb Ascii.eqb Bool.eqb option_map convert].
  rewrite Hsbn, Hmxn, Hexn.
  change (config_object _ SELECT_ASSET)
    with (Some (u, p, {| start_bet := sb; max_martingel := mx;
                         select_asset := SELECT_ASSET; expiration := ex;
                         api_balance := ab |})).
  cbv iota beta. cbn [api_balance].
  destruct (_initialize_connection u p ab acct) as [l calls].
  reflexivity.
Qed.

Lemma constructor_with_config_witness :
  dict_get "API_USERNAME" sample_environ = Some "user@example.org"%string
  /\ dict_get "API_PASSWORD" sample_environ = Some "secret"%string
  /\ dict_get "START_BET" sample_environ = Some "10"%string
  /\ int_of_decimal "10" = Some 10
  /\ dict_get "MAX_MARTINGEL" sample_environ = Some "3"%string
  /\ int_of_decimal "3" = Some 3
  /\ dict_get "EXPIRATION" sample_environ = Some "1"%string
  /\ int_of_decimal "1" = Some 1
  /\ dict_get "API_BALANCE" sample_environ = Some "PRACTICE"%string
  /\ IQOptionTrader int_of_decimal sample_environ refusing_account
       "GBPUSD-OTC"
     = (fst (_initialize_connection "user@example.org" "secret" "PRACTICE"
               refusing_account),
        snd (_initialize_connection "user@example.org" "secret" "PRACTICE"
               refusing_account),
        Constructed cfg10 (__init__ cfg10)).
Proof.
  repeat (split; [reflexivity|]).
  exact (constructor_with_config int_of_decimal sample_environ
           refusing_account "GBPUSD-OTC" "user@example.org" "secret"
           "PRACTICE" "10" "3" "1" 10 3 1
           eq_refl eq_refl eq_refl eq_refl eq_refl eq_refl eq_refl eq_refl
           eq_refl).
Defined.

(** X24.  A connection the broker refuses is logged as failed and then,
    all the same, as successful, and the balance is switched as after a
    connection made: the calls are [connect], then [change_balance] with
    the configured mode. *)
Theorem refused_connection_goes_on (username password api_balance : string)
    (acct : account_api) (reason : string) :
  connect acct = Ok (false, reason) ->
  exists l calls,
    _initialize_connection username password api_balance acct
    = (InfoConnectionFailed reason :: InfoConnected :: l,
       CallConnect username password
         :: CallChangeBalance api_balance :: calls)
    /\ (l, CallChangeBalance api_balance :: calls)
       = _switch_to_practice_account api_balance acct.
Proof.
  intros Hc. unfold _initialize_connection. rewrite Hc.
  unfold _switch_to_practice_account.
  destruct (change_balance acct api_balance) as [[]|e].
  - destruct (balance acct) as [b|e]; eexists; eexists; split; reflexivity.
  - eexists; eexists; split; reflexivity.
Qed.

Lemma refused_connection_goes_on_witness :
  connect refusing_account = Ok (false, "invalid credentials"%string)
  /\ exists l calls,
       _initialize_connection "user" "secret" "PRACTICE" refusing_account
       = (InfoConnectionFailed "invalid credentials" :: InfoConnected :: l,
          CallConnect "user" "secret"
            :: CallChangeBalance "PRACTICE" :: calls)
       /\ (l, CallChangeBalance "PRACTICE" :: calls)
          = _switch_to_practice_account "PRACTICE" refusing_account.
Proof.
  split; [reflexivity|].
  exact (refused_connection_goes_on "user" "secret" "PRACTICE"
           refusing_account "invalid credentials" eq_refl).
Defined.
